(** * Stock_News_Agent: extraction, persistence and enrichment pipeline

    A shallow embedding of [utils/fetch_html_content.py], [utils/database.py],
    [utils/llm_service.py] and [utils/news_processor.py], and the properties
    of the ingestion-and-enrichment pipeline proved about it.

    Conventions of the embedding:
    - a Python [str] is a [string], one [ascii] per character;
    - a Python value that comes out of [json.loads], or that sits in a record
      dictionary, is a [Py.value] (no floats);
    - a function that can raise returns the exception as a value;
    - the SQLite table is a list of rows in rowid order, the console is a list
      of events, the remote model is an oracle that sees the requests made so
      far. *)

From Stdlib Require Import ZArith Lia Ascii.
From stdpp Require Import base option list strings gmap pretty.

#[local] Set Warnings "-register-all".
Local Open Scope nat_scope.

(* ===================================================================== *)
(** * Python values and the built-in operations the code relies on        *)
(* ===================================================================== *)

Module Py.

(** The exception classes that occur in the modelled code. *)
Inductive exn :=
| TypeError | KeyError | IndexError | AttributeError | JSONDecodeError.

#[global] Instance exn_eq_dec : EqDecision exn.
Proof. solve_decision. Defined.

(** [None], [bool], [int], [str], [list] and [dict] (string keys in
    insertion order, pairwise distinct as [json.loads] builds them). *)
Inductive value :=
| VNone
| VBool (b : bool)
| VInt (z : Z)
| VStr (s : string)
| VList (l : list value)
| VDict (kv : list (string * value)).

(** [len(l) == 0] *)
Definition null {A} (l : list A) : bool :=
  match l with [] => true | _ :: _ => false end.

(** Truth value of an object, as tested by [if x] and [not x]. *)
Definition str_truthy (s : string) : bool :=
  match s with EmptyString => false | String _ _ => true end.

Definition truthy (v : value) : bool :=
  match v with
  | VNone => false
  | VBool b => b
  | VInt z => negb (z =? 0)%Z
  | VStr s => str_truthy s
  | VList l => negb (null l)
  | VDict kv => negb (null kv)
  end.

(** ** Strings *)

(** [str.isspace] on one character (code points below 256). *)
Definition is_space (c : ascii) : bool :=
  let n := nat_of_ascii c in
  ((9 <=? n) && (n <=? 13)) || ((28 <=? n) && (n <=? 32))
  || (n =? 133) || (n =? 160).

Fixpoint lstrip (s : string) : string :=
  match s with
  | EmptyString => EmptyString
  | String c s' => if is_space c then lstrip s' else s
  end.

Definition rstrip (s : string) : string := String.rev (lstrip (String.rev s)).

(** [s.strip()] *)
Definition strip (s : string) : string := rstrip (lstrip s).

(** [s[:n]] *)
Fixpoint str_take (n : nat) (s : string) : string :=
  match n, s with
  | S n', String c s' => String c (str_take n' s')
  | _, _ => EmptyString
  end.

(** [sep.join(parts)] *)
Fixpoint join (sep : string) (parts : list string) : string :=
  match parts with
  | [] => ""
  | [p] => p
  | p :: rest => p +:+ sep +:+ join sep rest
  end.

Fixpoint is_prefix (p s : string) : bool :=
  match p, s with
  | EmptyString, _ => true
  | String a p', String b s' => if Ascii.eqb a b then is_prefix p' s' else false
  | String _ _, EmptyString => false
  end.

(** [sub in s] for two strings. *)
Fixpoint is_substring (sub s : string) : bool :=
  is_prefix sub s ||
  match s with
  | EmptyString => false
  | String _ s' => is_substring sub s'
  end.

(** The characters of a string, as iteration over it yields them. *)
Fixpoint chars (s : string) : list string :=
  match s with
  | EmptyString => []
  | String c s' => String c "" :: chars s'
  end.

(** ** Dictionaries *)

Fixpoint assoc (k : string) (kv : list (string * value)) : option value :=
  match kv with
  | [] => None
  | (k', v) :: rest => if String.eqb k k' then Some v else assoc k rest
  end.

Definition is_dict (v : value) : bool :=
  match v with VDict _ => true | _ => false end.

(** [v == s] for a string [s]. *)
Definition eq_str (v : value) (s : string) : bool :=
  match v with VStr s' => String.eqb s' s | _ => false end.

(** [iter(v)]: what a [for] loop over [v] visits. *)
Definition iterate (v : value) : exn + list value :=
  match v with
  | VDict kv => inr (map (fun p => VStr (fst p)) kv)
  | VList l => inr l
  | VStr s => inr (map VStr (chars s))
  | VNone | VBool _ | VInt _ => inl TypeError
  end.

(** [k in v] for a string [k]. *)
Definition contains (k : string) (v : value) : exn + bool :=
  match v with
  | VDict kv => inr (match assoc k kv with Some _ => true | None => false end)
  | VList l => inr (existsb (fun x => eq_str x k) l)
  | VStr s => inr (is_substring k s)
  | VNone | VBool _ | VInt _ => inl TypeError
  end.

(** [l[i]] on a list: negative indices count from the end. *)
Definition list_index (l : list value) (i : Z) : exn + value :=
  let n := Z.of_nat (length l) in
  let j := if (i <? 0)%Z then (n + i)%Z else i in
  if ((0 <=? j)%Z && (j <? n)%Z)%bool then
    match l !! Z.to_nat j with
    | Some v => inr v
    | None => inl IndexError
    end
  else inl IndexError.

(** [v[k]] *)
Definition getitem (v k : value) : exn + value :=
  match v with
  | VDict kv =>
      match k with
      | VStr s => match assoc s kv with Some x => inr x | None => inl KeyError end
      | VList _ | VDict _ => inl TypeError
      | VNone | VBool _ | VInt _ => inl KeyError
      end
  | VList l =>
      match k with
      | VInt i => list_index l i
      | VBool b => list_index l (if b then 1 else 0)%Z
      | _ => inl TypeError
      end
  | VStr s =>
      match k with
      | VInt i => list_index (map VStr (chars s)) i
      | VBool b => list_index (map VStr (chars s)) (if b then 1 else 0)%Z
      | _ => inl TypeError
      end
  | VNone | VBool _ | VInt _ => inl TypeError
  end.

(** [v.get(k)]: only a [dict] has the method. *)
Definition dict_get (v : value) (k : string) : exn + value :=
  match v with
  | VDict kv => inr (default VNone (assoc k kv))
  | _ => inl AttributeError
  end.

(** [v.strip()]: only a [str] has the method. *)
Definition strip_method (v : value) : exn + string :=
  match v with
  | VStr s => inr (strip s)
  | _ => inl AttributeError
  end.

(** ["".join(c for c in l if isinstance(c, str))] *)
Fixpoint join_strs (l : list value) : string :=
  match l with
  | [] => ""
  | VStr s :: rest => s +:+ join_strs rest
  | _ :: rest => join_strs rest
  end.

(** [str(x)] of a nullable string, as an f-string formats it. *)
Definition fmt_opt (x : option string) : string := default "None" x.

End Py.

(* ===================================================================== *)
(** * utils/fetch_html_content.py: the extractor                          *)
(* ===================================================================== *)

Module FetchHtmlContent.
Import Py.

(** The line feed of ["\n".join(...)]. *)
Definition nl : string := String (ascii_of_nat 10) "".

(** The dictionary [{"title": ..., "content": ...}] the extractor returns.
    The title is whatever object the code put there. *)
Record extraction := { title : value; content : string }.

(** What [json.loads(script.string)] meets in one
    [<script type="application/prs.init-data+json">] tag. *)
Inductive script_tag :=
| NoString               (* [script.string] is [None] *)
| Malformed              (* the text is not JSON *)
| Json (data : value).   (* the text parses to [data] *)

Definition json_loads (s : script_tag) : exn + value :=
  match s with
  | NoString => inl TypeError
  | Malformed => inl JSONDecodeError
  | Json data => inr data
  end.

(** The document as [BeautifulSoup(html_content, 'html.parser')] answers the
    five queries of [parse_news_html]. A text is the tag's
    [get_text(strip=True)]. *)
Record soup := {
  scripts : list script_tag;
    (* soup.find_all('script', type='application/prs.init-data+json') *)
  h1_title_KX2tCBZq : option string;
    (* soup.find('h1', class_='title-KX2tCBZq') *)
  h1_tv_news_article_title : option string;
    (* soup.find('h1', class_='tv-news-article__title') *)
  h1_any : option string;
    (* soup.find('h1') *)
  div_body_KX2tCBZq : option (list string)
    (* soup.find('div', class_='body-KX2tCBZq'), then .find_all('p') *)
}.

(** The argument of [parse_news_html]: falsy ([None] or [""]) or a document. *)
Inductive html :=
| EmptyHtml
| Html (doc : soup).

(** The two local variables all tiers share: [title] (here [var_title], as
    the result has a field of that name) and [content_paragraphs]. *)
Record locals := { var_title : value; content_paragraphs : list string }.

Definition initial_locals : locals :=
  {| var_title := VStr ""; content_paragraphs := [] |}.

(** How a piece of the function body ends: it falls through, it executes
    [return], or an exception leaves it. The locals survive all three. *)
Inductive signal (A : Type) :=
| Normal (a : A)
| Return (r : extraction)
| Raise (e : exn).
Arguments Normal {A} a.
Arguments Return {A} r.
Arguments Raise {A} e.

Definition M (A : Type) : Type := locals -> locals * signal A.

Definition ret {A} (a : A) : M A := fun st => (st, Normal a).

Definition bind {A B} (m : M A) (k : A -> M B) : M B :=
  fun st =>
    match m st with
    | (st', Normal a) => k a st'
    | (st', Return r) => (st', Return r)
    | (st', Raise e) => (st', Raise e)
    end.

Notation "x <- m ;; k" := (bind m (fun x => k))
  (at level 100, m at next level, right associativity).
Notation "m ;;; k" := (bind m (fun _ => k))
  (at level 100, right associativity).

Definition lift {A} (r : exn + A) : M A :=
  fun st => match r with inl e => (st, Raise e) | inr a => (st, Normal a) end.

Definition return_ {A} (r : extraction) : M A := fun st => (st, Return r).

Definition get_locals : M locals := fun st => (st, Normal st).

Definition set_title (t : value) : M unit :=
  fun st => ({| var_title := t; content_paragraphs := content_paragraphs st |}, Normal tt).

Definition append_paragraph (p : string) : M unit :=
  fun st => ({| var_title := var_title st;
                content_paragraphs := content_paragraphs st ++ [p] |}, Normal tt).

Fixpoint for_each {A} (l : list A) (body : A -> M unit) : M unit :=
  match l with
  | [] => ret tt
  | x :: rest => body x ;;; for_each rest body
  end.

(** [try: body except (classes): continue] *)
Definition try_except (caught : exn -> bool) (body : M unit) : M unit :=
  fun st =>
    match body st with
    | (st', Raise e) => if caught e then (st', Normal tt) else (st', Raise e)
    | other => other
    end.

Definition when (b : bool) (m : M unit) : M unit := if b then m else ret tt.

(** Lines 84-87: one node of [astDescription.children]. *)
Definition paragraph_step (paragraph_node : value) : M unit :=
  ty <- lift (dict_get paragraph_node "type") ;;
  if eq_str ty "p" then
    has_children <- lift (contains "children" paragraph_node) ;;
    if has_children then
      children <- lift (getitem paragraph_node (VStr "children")) ;;
      p_children <- lift (iterate children) ;;
      let paragraph_text := join_strs p_children in
      when (str_truthy paragraph_text) (append_paragraph paragraph_text)
    else ret tt
  else ret tt.

(** Lines 74-94: one [story] object. *)
Definition story_step (story_data : value) : M unit :=
  has_title <- lift (contains "title" story_data) ;;
  when has_title
    (t <- lift (getitem story_data (VStr "title")) ;; set_title t) ;;;
  has_ast <- lift (contains "astDescription" story_data) ;;
  has_children <-
    (if has_ast then
       ast <- lift (getitem story_data (VStr "astDescription")) ;;
       lift (contains "children" ast)
     else ret false) ;;
  if has_children then
    ast <- lift (getitem story_data (VStr "astDescription")) ;;
    children <- lift (getitem ast (VStr "children")) ;;
    nodes <- lift (iterate children) ;;
    for_each nodes paragraph_step ;;;
    st <- get_locals ;;
    if truthy (var_title st) && negb (null (content_paragraphs st)) then
      stripped <- lift (strip_method (var_title st)) ;;
      return_ {| title := VStr stripped;
                 content := join nl (content_paragraphs st) |}
    else ret tt
  else ret tt.

(** Lines 72-74: one key of the parsed data. *)
Definition entry_step (data key : value) : M unit :=
  entry <- lift (getitem data key) ;;
  if is_dict entry then
    has_story <- lift (contains "story" entry) ;;
    if has_story then
      story_data <- lift (getitem entry (VStr "story")) ;;
      story_step story_data
    else ret tt
  else ret tt.

(** The classes of [except (json.JSONDecodeError, TypeError, KeyError)]. *)
Definition caught (e : exn) : bool :=
  match e with
  | JSONDecodeError | TypeError | KeyError => true
  | IndexError | AttributeError => false
  end.

(** Lines 66-97: one script tag. *)
Definition script_step (script : script_tag) : M unit :=
  try_except caught
    (data <- lift (json_loads script) ;;
     keys <- lift (iterate data) ;;
     for_each keys (entry_step data)).

(** Lines 65-97: the structured-data tier. *)
Definition json_tier (doc : soup) : M unit :=
  for_each (scripts doc) script_step.

(** Lines 104-108: the first selector that finds a tag. *)
Definition title_tag (doc : soup) : option string :=
  match h1_title_KX2tCBZq doc with
  | Some t => Some t
  | None =>
      match h1_tv_news_article_title doc with
      | Some t => Some t
      | None => h1_any doc
      end
  end.

Definition no_content_message : string :=
  "No readable content found on this page after trying all methods.".

(** Lines 104-133: the tag tier and the final result. *)
Definition tag_tier (doc : soup) : M extraction :=
  match title_tag doc with
  | Some t => set_title (VStr t)
  | None => ret tt
  end ;;;
  match div_body_KX2tCBZq doc with
  | Some paragraphs =>
      for_each paragraphs
        (fun paragraph_text =>
           when (str_truthy paragraph_text) (append_paragraph paragraph_text))
  | None => ret tt
  end ;;;
  st <- get_locals ;;
  match content_paragraphs st with
  | [] =>
      return_ {| title := if truthy (var_title st) then var_title st
                          else VStr "No Title Found";
                 content := no_content_message |}
  | _ :: _ =>
      return_ {| title := var_title st;
                 content := join nl (content_paragraphs st) |}
  end.

(** [parse_news_html(html_content)]: the dictionary returned, or the exception
    that leaves the function. The console warning of line 101 is not
    modelled. *)
Definition parse_news_html (html_content : html) : exn + extraction :=
  match html_content with
  | EmptyHtml =>
      inr {| title := VStr "Error"; content := "Empty HTML content provided." |}
  | Html doc =>
      match (json_tier doc ;;; tag_tier doc) initial_locals with
      | (_, Normal r) => inr r
      | (_, Return r) => inr r
      | (_, Raise e) => inl e
      end
  end.

End FetchHtmlContent.

(* ===================================================================== *)
(** * The console                                                         *)
(* ===================================================================== *)

(** One constructor per [print] call of the modelled functions, with the
    values the message is formatted from. *)
Inductive event :=
| PrintInitialized
| PrintSkippingDuplicate (title link : Py.value)
| PrintErrorSaving (title : Py.value)
| PrintSaved (saved_count : nat)
| PrintUpdated (news_id : nat)
| PrintNoItemsToSave
| PrintFound (count : nat)
| PrintNoNewItems
| PrintErrorSummarizing
| PrintErrorReport
| PrintGenerating (target_date_str : string) (symbol : option string).

(* ===================================================================== *)
(** * utils/database.py: the store                                        *)
(* ===================================================================== *)

Module Database.
Import Py.

(** One row of table [news]. The [NOT NULL] columns hold a text, the others
    a text or [NULL]. *)
Record row := {
  id : nat;
  symbol : string;
  title : string;
  content : option string;
  summary : option string;
  link : string;
  source : option string;
  published_at : option string;
  created_at : option string
}.

(** The table in rowid order, and the largest rowid handed out so far
    ([AUTOINCREMENT]). *)
Record db := { rows : list row; seq : nat }.

Definition empty_db : db := {| rows := []; seq := 0 |}.

(** [init_db()] on a database file that has the table or not:
    [CREATE TABLE IF NOT EXISTS]. *)
Definition init_db (file : option db) : db * list event :=
  (default empty_db file, [PrintInitialized]).

(** A candidate record: a dictionary read with [item.get(key)]. *)
Definition get (item : gmap string value) (key : string) : value :=
  default VNone (item !! key).

(** How [sqlite3] binds a parameter to a [TEXT] column: [NULL], a text, or no
    binding at all (an object without adapter, an integer beyond 64 bits). *)
Definition adapt (v : value) : option (option string) :=
  match v with
  | VNone => Some None
  | VStr s => Some (Some s)
  | VInt z =>
      if ((- 2 ^ 63 <=? z)%Z && (z <? 2 ^ 63)%Z)%bool
      then Some (Some (pretty z)) else None
  | VBool b => Some (Some (if b then "1" else "0"))
  | VList _ | VDict _ => None
  end.

Inductive insert_result :=
| Inserted
| IntegrityError     (* a [NOT NULL] or the [UNIQUE] constraint failed *)
| OtherError.        (* any other exception of [cursor.execute] *)

(** Lines 39-49: one [INSERT INTO news (symbol, title, content, link, source,
    published_at)], at time [now]. *)
Definition execute_insert (now : string) (d : db) (item : gmap string value)
  : db * insert_result :=
  match adapt (get item "symbol"), adapt (get item "title"),
        adapt (get item "content"), adapt (get item "link"),
        adapt (get item "source"), adapt (get item "published") with
  | Some sy, Some ti, Some co, Some li, Some so, Some pu =>
      match sy, ti, li with
      | Some sy, Some ti, Some li =>
          if bool_decide (li ∈ map link (rows d)) then (d, IntegrityError)
          else
            ({| rows := rows d ++
                  [{| id := S (seq d); symbol := sy; title := ti; content := co;
                      summary := None; link := li; source := so;
                      published_at := pu; created_at := Some now |}];
                seq := S (seq d) |}, Inserted)
      | _, _, _ => (d, IntegrityError)
      end
  | _, _, _, _, _, _ => (d, OtherError)
  end.

(** Lines 36-54: the loop, with its counter and what it prints. *)
Fixpoint save_loop (now : string) (d : db) (news_items : list (gmap string value))
    (saved_count : nat) : db * nat * list event :=
  match news_items with
  | [] => (d, saved_count, [])
  | item :: rest =>
      match execute_insert now d item with
      | (d', Inserted) => save_loop now d' rest (S saved_count)
      | (d', IntegrityError) =>
          let '(d'', n, out) := save_loop now d' rest saved_count in
          (d'', n, PrintSkippingDuplicate (get item "title") (get item "link") :: out)
      | (d', OtherError) =>
          let '(d'', n, out) := save_loop now d' rest saved_count in
          (d'', n, PrintErrorSaving (get item "title") :: out)
      end
  end.

(** [save_news(news_items)]: the store afterwards, the console output and the
    value returned to the caller (the function has no [return] statement). *)
Definition save_news (now : string) (d : db) (news_items : list (gmap string value))
  : db * list event * value :=
  let '(d', saved_count, out) := save_loop now d news_items 0 in
  (d', out ++ [PrintSaved saved_count], VNone).

(** One dictionary of [get_unsmarized_news]. *)
Record unsummarized := {
  u_id : nat;
  u_title : string;
  u_content : option string
}.

(** [summary IS NULL OR summary = ""] *)
Definition summary_missing (r : row) : bool :=
  match summary r with
  | None => true
  | Some s => negb (str_truthy s)
  end.

(** [get_unsmarized_news()] *)
Definition get_unsmarized_news (d : db) : list unsummarized :=
  map (fun r => {| u_id := id r; u_title := title r; u_content := content r |})
      (filter (fun r => summary_missing r = true) (rows d)).

(** [update_news_summary(news_id, summary)]:
    [UPDATE news SET summary = ? WHERE id = ?]. *)
Definition set_summary (s : string) (r : row) : row :=
  {| id := id r; symbol := symbol r; title := title r; content := content r;
     summary := Some s; link := link r; source := source r;
     published_at := published_at r; created_at := created_at r |}.

Definition update_news_summary (d : db) (news_id : nat) (new_summary : string)
  : db * list event :=
  ({| rows := map (fun r => if decide (id r = news_id)
                            then set_summary new_summary r else r) (rows d);
      seq := seq d |},
   [PrintUpdated news_id]).

(** Comparison of two texts under the [BINARY] collation. *)
Definition text_le (a b : string) : bool := String.leb a b.

(** [published_at BETWEEN lo AND hi]; a [NULL] operand makes it unknown and
    the row is not selected. *)
Definition between (x : option string) (lo hi : string) : bool :=
  match x with
  | None => false
  | Some p => text_le lo p && text_le p hi
  end.

(** Lines 95-102: the rows the query selects. *)
Definition select_by_date_range (d : db) (start_date_str end_date_str : string)
    (sym : option string) : list row :=
  let lo := start_date_str +:+ " 00:00:00 UTC" in
  let hi := end_date_str +:+ " 23:59:59 UTC" in
  filter (fun r =>
            (between (published_at r) lo hi &&
             match sym with
             | Some s => if str_truthy s then bool_decide (symbol r = s) else true
             | None => true
             end) = true)
         (rows d).

(** One dictionary of [get_news_by_date_range]. *)
Record news_summary := { ns_title : string; ns_summary : option string }.

(** [get_news_by_date_range(start_date_str, end_date_str, symbol)] *)
Definition get_news_by_date_range (d : db) (start_date_str end_date_str : string)
    (sym : option string) : list news_summary :=
  map (fun r => {| ns_title := title r; ns_summary := summary r |})
      (select_by_date_range d start_date_str end_date_str sym).

End Database.

(* ===================================================================== *)
(** * utils/llm_service.py: the summarization collaborator                *)
(* ===================================================================== *)

Module LlmService.
Import Py.

(** One [client.chat.completions.create] call: its two messages. *)
Record request := { system_message : string; user_message : string }.

(** What comes back: an exception anywhere in the [try] block before
    [.strip()], or the object read at [response.choices[0].message.content]. *)
Inductive reply :=
| ApiFailure
| MessageContent (text : option string).

(** The remote model. Its answer may depend on every request made before. *)
Definition client := list request -> request -> reply.

(** The attributes of [LLMService] the two methods read. *)
Record LLMService := {
  api_key : option string;
  model_name : string;
  chat : client
}.

(** [not self.api_key] *)
Definition no_api_key (self : LLMService) : bool :=
  match api_key self with
  | None => true
  | Some k => negb (str_truthy k)
  end.

Definition nl : string := String (ascii_of_nat 10) "".

(** [text[:100]]: [None] is not subscriptable. *)
Definition text_start (text : option string) : exn + string :=
  match text with
  | None => inl TypeError
  | Some t => inr (str_take 100 t)
  end.

Definition summarize_system : string :=
  "You are a helpful assistant that summarizes news articles concisely. Output format: Summary: <summary>".

Definition summarize_request (text : option string) : request :=
  {| system_message := summarize_system;
     user_message := "Please summarize the following news article:" +:+ nl +:+ nl
                     +:+ fmt_opt text |}.

Definition placeholder_summary (start : string) : string :=
  "Placeholder Summary: " +:+ start +:+ "...".

Definition error_summary (start : string) : string :=
  "Error Summary: Failed to summarize due to LLM error. Original text start: "
  +:+ start +:+ "...".

(** What a method call leaves behind: the value returned or the exception
    raised, the requests sent so far, and the console output. *)
Record outcome (A : Type) := {
  result : exn + A;
  requests : list request;
  printed : list event
}.
Arguments result {A} o.
Arguments requests {A} o.
Arguments printed {A} o.

(** [LLMService.summarize_text(self, text)] after the requests [sent]. *)
Definition summarize_text (self : LLMService) (sent : list request)
    (text : option string) : outcome string :=
  if no_api_key self then
    {| result := match text_start text with
                 | inl e => inl e
                 | inr start => inr (placeholder_summary start)
                 end;
       requests := sent; printed := [] |}
  else
    let req := summarize_request text in
    match chat self sent req with
    | MessageContent (Some c) =>
        {| result := inr (strip c); requests := sent ++ [req]; printed := [] |}
    | MessageContent None | ApiFailure =>
        (* except Exception as e *)
        {| result := match text_start text with
                     | inl e => inl e
                     | inr start => inr (error_summary start)
                     end;
           requests := sent ++ [req];
           printed := [PrintErrorSummarizing] |}
    end.

(** Lines 75-78: the enumerated list of the report prompt. *)
Fixpoint report_lines (i : nat) (news_summaries : list Database.news_summary)
  : string :=
  match news_summaries with
  | [] => ""
  | item :: rest =>
      pretty (S i) +:+ ". " +:+ Database.ns_title item +:+ nl
      +:+ "   Summary: " +:+ fmt_opt (Database.ns_summary item) +:+ nl
      +:+ report_lines (S i) rest
  end.

Definition report_system : string :=
  "You are a financial analyst. Generate a concise daily news report based on the provided summaries. Highlight key trends or important events.".

Definition report_request (news_summaries : list Database.news_summary) : request :=
  let report_content :=
    "Daily News Report:" +:+ nl +:+ nl +:+ report_lines 0 news_summaries in
  {| system_message := report_system;
     user_message := "Here are the news summaries for today:" +:+ nl +:+ nl
                     +:+ report_content +:+ nl +:+ nl
                     +:+ "Please generate a comprehensive daily report." |}.

(** [LLMService.generate_daily_report(self, news_summaries)] *)
Definition generate_daily_report (self : LLMService) (sent : list request)
    (news_summaries : list Database.news_summary) : outcome string :=
  if no_api_key self then
    {| result := inr "Placeholder Daily Report: LLM API key not configured.";
       requests := sent; printed := [] |}
  else
    match news_summaries with
    | [] =>
        {| result := inr "No news summaries provided for daily report.";
           requests := sent; printed := [] |}
    | _ :: _ =>
        let req := report_request news_summaries in
        match chat self sent req with
        | MessageContent (Some c) =>
            {| result := inr (strip c); requests := sent ++ [req]; printed := [] |}
        | MessageContent None | ApiFailure =>
            {| result :=
                 inr ("Error Daily Report: Failed to generate due to LLM error. Summaries provided: "
                      +:+ pretty (length news_summaries));
               requests := sent ++ [req];
               printed := [PrintErrorReport] |}
        end
    end.

End LlmService.

(* ===================================================================== *)
(** * utils/news_processor.py: the pipeline and the report generator      *)
(* ===================================================================== *)

Module NewsProcessor.
Import Py.

(** The argument of [process_and_summarize_news]: the value under ['symbol']
    when the key is there, and the list under ['news'] (empty when it is
    not). *)
Record news_data := {
  nd_symbol : option value;
  nd_news : list (gmap string value)
}.

(** The state a run leaves: the store, the requests sent to the model, the
    console, and the exception that left the function, if one did. *)
Record run := {
  store : Database.db;
  sent : list LlmService.request;
  console : list event;
  raised : option exn
}.

(** Lines 18-21: [item['symbol'] = symbol] on every item. *)
Definition stamp (sym : value) (items : list (gmap string value))
  : list (gmap string value) :=
  map (fun item => <["symbol" := sym]> item) items.

(** Lines 32-34: the loop over the backlog. *)
Fixpoint summarize_loop (llm_service : LlmService.LLMService) (d : Database.db)
    (sent0 : list LlmService.request) (backlog : list Database.unsummarized) : run :=
  match backlog with
  | [] => {| store := d; sent := sent0; console := []; raised := None |}
  | news_item :: rest =>
      let o := LlmService.summarize_text llm_service sent0
                 (Database.u_content news_item) in
      match LlmService.result o with
      | inl e =>
          {| store := d; sent := LlmService.requests o;
             console := LlmService.printed o; raised := Some e |}
      | inr new_summary =>
          let '(d', out) :=
            Database.update_news_summary d (Database.u_id news_item) new_summary in
          let r := summarize_loop llm_service d' (LlmService.requests o) rest in
          {| store := store r; sent := sent r;
             console := LlmService.printed o ++ out ++ console r;
             raised := raised r |}
      end
  end.

(** Lines 23-26: the ingest phase. *)
Definition ingest (now : string) (d : Database.db) (data : news_data)
  : Database.db * list event :=
  let sym := default (VStr "UNKNOWN") (nd_symbol data) in
  match stamp sym (nd_news data) with
  | [] => (d, [PrintNoItemsToSave])
  | news_items_for_db =>
      let '(d', out, _) := Database.save_news now d news_items_for_db in
      (d', out)
  end.

(** Lines 29-36: the enrich phase. *)
Definition enrich (llm_service : LlmService.LLMService) (d : Database.db)
    (sent0 : list LlmService.request) : run :=
  match Database.get_unsmarized_news d with
  | [] => {| store := d; sent := sent0; console := [PrintNoNewItems]; raised := None |}
  | unsmarized_news =>
      let r := summarize_loop llm_service d sent0 unsmarized_news in
      {| store := store r; sent := sent r;
         console := PrintFound (length unsmarized_news) :: console r;
         raised := raised r |}
  end.

(** [NewsProcessor.process_and_summarize_news(self, news_data)] *)
Definition process_and_summarize_news (llm_service : LlmService.LLMService)
    (now : string) (d : Database.db) (sent0 : list LlmService.request)
    (data : news_data) : run :=
  let '(d1, out1) := ingest now d data in
  let r := enrich llm_service d1 sent0 in
  {| store := store r; sent := sent r; console := out1 ++ console r;
     raised := raised r |}.

(** The message of line 47. *)
Definition no_summaries_message (target_date_str : string) (sym : option string)
  : string :=
  "No news summaries found for " +:+ target_date_str +:+ " (Symbol: "
  +:+ match sym with
      | Some s => if str_truthy s then s else "All"
      | None => "All"
      end
  +:+ ") to generate a report.".

(** [NewsProcessor.create_daily_report(self, target_date_str, symbol)] *)
Definition create_daily_report (llm_service : LlmService.LLMService)
    (d : Database.db) (sent0 : list LlmService.request)
    (target_date_str : string) (sym : option string) : LlmService.outcome string :=
  let news_summaries :=
    Database.get_news_by_date_range d target_date_str target_date_str sym in
  match news_summaries with
  | [] =>
      {| LlmService.result := inr (no_summaries_message target_date_str sym);
         LlmService.requests := sent0;
         LlmService.printed := [PrintGenerating target_date_str sym] |}
  | _ :: _ =>
      let o := LlmService.generate_daily_report llm_service sent0 news_summaries in
      {| LlmService.result := LlmService.result o;
         LlmService.requests := LlmService.requests o;
         LlmService.printed :=
           PrintGenerating target_date_str sym :: LlmService.printed o |}
  end.

End NewsProcessor.

(* ===================================================================== *)
(** * utils/fetch_html_content.py: the news fetch                         *)
(* ===================================================================== *)

Module FetchNews.
Import Py FetchHtmlContent.

(** A naive [datetime] without microseconds, and ['%Y-%m-%d %H:%M:%S UTC'] as
    [strftime] prints it for a year of four digits. *)
Record datetime := {
  year : nat; month : nat; day : nat; hour : nat; minute : nat; second : nat
}.

Definition digit (n : nat) : ascii := ascii_of_nat (48 + n mod 10).

Definition two_digits (n : nat) : string :=
  String (digit (n / 10)) (String (digit n) "").

Definition four_digits (n : nat) : string :=
  two_digits (n / 100) +:+ two_digits (n mod 100).

Definition strftime (t : datetime) : string :=
  four_digits (year t) +:+ "-" +:+ two_digits (month t) +:+ "-"
  +:+ two_digits (day t) +:+ " " +:+ two_digits (hour t) +:+ ":"
  +:+ two_digits (minute t) +:+ ":" +:+ two_digits (second t) +:+ " UTC".

(** [t.isoformat()] *)
Definition isoformat (t : datetime) : string :=
  four_digits (year t) +:+ "-" +:+ two_digits (month t) +:+ "-"
  +:+ two_digits (day t) +:+ "T" +:+ two_digits (hour t) +:+ ":"
  +:+ two_digits (minute t) +:+ ":" +:+ two_digits (second t).

(** [a < b] on two datetimes: the order of their fields. *)
Definition before (a b : datetime) : bool :=
  match Nat.compare (year a) (year b) with
  | Lt => true | Gt => false
  | Eq =>
  match Nat.compare (month a) (month b) with
  | Lt => true | Gt => false
  | Eq =>
  match Nat.compare (day a) (day b) with
  | Lt => true | Gt => false
  | Eq =>
  match Nat.compare (hour a) (hour b) with
  | Lt => true | Gt => false
  | Eq =>
  match Nat.compare (minute a) (minute b) with
  | Lt => true | Gt => false
  | Eq => (second a <? second b)
  end end end end end.

(** What the function takes from outside the repository: the two operations
    of the [datetime] library it calls ([None] when they raise for a value
    out of range), [str()] of a list or dictionary, and what
    [fetch_html_content(url)] hands back after the urls fetched so far. *)
Record world := {
  utcfromtimestamp : Z -> option datetime;
  plus_days : datetime -> Z -> option datetime;
  repr : value -> string;
  fetch_html_content : list string -> string -> html
}.

(** How [fetch_tradingview_news] can end without a result. *)
Inductive failure :=
| PythonError (e : exn)
| RequestError          (* [requests.get] or [raise_for_status] raised *)
| DateOutOfRange.       (* the [datetime] library raised *)

Definition base_url : string := "https://www.tradingview.com".

(** [fetch_news_content(news_url)] *)
Definition fetch_news_content (w : world) (fetched : list string)
    (news_url : string) : exn + extraction :=
  match fetch_html_content w fetched news_url with
  | EmptyHtml =>
      inr {| title := VStr "Error";
             content := "Failed to retrieve HTML content." |}
  | Html doc => parse_news_html (Html doc)
  end.

(** [str(v)], as an f-string formats [v]. *)
Definition str_of (w : world) (v : value) : string :=
  match v with
  | VStr s => s
  | VNone => "None"
  | VBool b => if b then "True" else "False"
  | VInt z => pretty z
  | VList _ | VDict _ => repr w v
  end.

(** [item.get(key, default)] *)
Definition get_or (item : value) (key : string) (dflt : value) : exn + value :=
  match item with
  | VDict kv => inr (default dflt (assoc key kv))
  | _ => inl AttributeError
  end.

(** Line 183: [datetime.utcfromtimestamp(item["published"])]. *)
Definition published_dt (w : world) (item : value) : failure + datetime :=
  match getitem item (VStr "published") with
  | inl e => inl (PythonError e)
  | inr (VInt z) =>
      match utcfromtimestamp w z with
      | Some t => inr t
      | None => inl DateOutOfRange
      end
  | inr (VBool b) =>
      match utcfromtimestamp w (if b then 1 else 0)%Z with
      | Some t => inr t
      | None => inl DateOutOfRange
      end
  | inr _ => inl (PythonError TypeError)
  end.

(** Line 186: [item.get("link") or f"https://www.tradingview.com{...}"]. *)
Definition resolve_link (w : world) (item : value) : exn + value :=
  match dict_get item "link" with
  | inl e => inl e
  | inr l =>
      if truthy l then inr l
      else
        match get_or item "storyPath" (VStr "") with
        | inl e => inl e
        | inr story_path => inr (VStr (base_url +:+ str_of w story_path))
        end
  end.

(** [link.startswith('https://www.tradingview.com')] *)
Definition startswith_base (link : value) : exn + bool :=
  match link with
  | VStr s => inr (is_prefix base_url s)
  | _ => inl AttributeError
  end.

(** [[s["symbol"] for s in l]] *)
Fixpoint symbols_of (l : list value) : exn + list value :=
  match l with
  | [] => inr []
  | s :: rest =>
      match getitem s (VStr "symbol") with
      | inl e => inl e
      | inr x =>
          match symbols_of rest with
          | inl e => inl e
          | inr xs => inr (x :: xs)
          end
      end
  end.

(** The texts of a list all of whose elements are [str]. *)
Fixpoint texts_of (l : list value) : option (list string) :=
  match l with
  | [] => Some []
  | VStr s :: rest => option_map (cons s) (texts_of rest)
  | _ :: _ => None
  end.

(** Line 189: [", ".join([s["symbol"] for s in item.get("relatedSymbols", [])])]. *)
Definition related_symbols (item : value) : exn + string :=
  match get_or item "relatedSymbols" (VList []) with
  | inl e => inl e
  | inr rel =>
      match iterate rel with
      | inl e => inl e
      | inr ss =>
          match symbols_of ss with
          | inl e => inl e
          | inr xs =>
              match texts_of xs with
              | Some parts => inr (join ", " parts)
              | None => inl TypeError
              end
          end
      end
  end.

(** What one turn of the loop does with its item. *)
Inductive turn :=
| Skipped
| Kept (entry : gmap string value) (url : string)
| Failed (f : failure) (urls : list string).

(** Lines 182-199: one item of the feed, after the urls [fetched]. *)
Definition visit (w : world) (start_time end_time : datetime)
    (fetched : list string) (item : value) : turn :=
  match published_dt w item with
  | inl f => Failed f []
  | inr t =>
      if before t start_time || before end_time t then Skipped
      else
        match resolve_link w item with
        | inl e => Failed (PythonError e) []
        | inr link =>
            match startswith_base link with
            | inl e => Failed (PythonError e) []
            | inr false => Skipped
            | inr true =>
                match related_symbols item with
                | inl e => Failed (PythonError e) []
                | inr related =>
                    let url := str_of w link in
                    match fetch_news_content w fetched url,
                          get_or item "title" (VStr "No Title"),
                          get_or item "source" (VStr "Unknown Source") with
                    | inr page, inr ti, inr so =>
                        Kept {[ "title" := ti;
                                "source" := so;
                                "published" := VStr (strftime t);
                                "related_symbols" := VStr related;
                                "link" := link;
                                "content" := VStr (content page) ]} url
                    | inl e, _, _ => Failed (PythonError e) [url]
                    | _, inl e, _ => Failed (PythonError e) [url]
                    | _, _, inl e => Failed (PythonError e) [url]
                    end
                end
            end
        end
  end.

(** Lines 181-199: the loop, with the entries appended and the urls fetched. *)
Fixpoint collect (w : world) (start_time end_time : datetime)
    (items : list value) (fetched : list string)
  : (failure + list (gmap string value)) * list string :=
  match items with
  | [] => (inr [], fetched)
  | item :: rest =>
      match visit w start_time end_time fetched item with
      | Skipped => collect w start_time end_time rest fetched
      | Failed f urls => (inl f, fetched ++ urls)
      | Kept entry url =>
          match collect w start_time end_time rest (fetched ++ [url]) with
          | (inr news, fetched') => (inr (entry :: news), fetched')
          | (inl f, fetched') => (inl f, fetched')
          end
      end
  end.

(** The dictionary [all_news]. *)
Record all_news := {
  an_symbol : string;
  an_start_time : string;
  an_end_time : string;
  an_news : list (gmap string value)
}.

(** [fetch_tradingview_news(symbol, target_date, window)] for a [target_date]
    that is a date (or the date [strptime] read from the text), when the
    request came back with the parsed body [response] or failed ([None]):
    the result or the failure, and the urls fetched. The console is not
    modelled. *)
Definition fetch_tradingview_news (w : world) (response : option value)
    (symbol : string) (target_year target_month target_day : nat) (window : Z)
  : (failure + all_news) * list string :=
  let start_time :=
    {| year := target_year; month := target_month; day := target_day;
       hour := 9; minute := 30; second := 0 |} in
  match plus_days w start_time window with
  | None => (inl DateOutOfRange, [])
  | Some end_time =>
      match response with
      | None => (inl RequestError, [])
      | Some body =>
          match get_or body "items" (VList []) with
          | inl e => (inl (PythonError e), [])
          | inr news_items =>
              match iterate news_items with
              | inl e => (inl (PythonError e), [])
              | inr items =>
                  match collect w start_time end_time items [] with
                  | (inr news, fetched) =>
                      (inr {| an_symbol := symbol;
                              an_start_time := isoformat start_time;
                              an_end_time := isoformat end_time;
                              an_news := news |}, fetched)
                  | (inl f, fetched) => (inl f, fetched)
                  end
              end
          end
      end
  end.

End FetchNews.

(* ===================================================================== *)
(** * Vocabulary of the properties                                        *)
(* ===================================================================== *)

Module Extractor.
Import Py FetchHtmlContent.

(** What a script tag yields on its own: the result it returns when it is
    processed with fresh locals, if it returns one. *)
Definition block_yields (script : script_tag) : option extraction :=
  match script_step script initial_locals with
  | (_, Return r) => Some r
  | _ => None
  end.

(** A script tag that contributes nothing: processed with fresh locals it falls
    through (or its exception is caught) and the locals are still fresh. *)
Definition inert (script : script_tag) : Prop :=
  script_step script initial_locals = (initial_locals, Normal tt).

(** [{"type": "p", "children": [text]}] *)
Definition paragraph_node (text : string) : value :=
  VDict [("type", VStr "p"); ("children", VList [VStr text])].

(** A structured-data block [{key: {"story": {"title": t, "astDescription":
    {"children": [paragraph nodes]}}}}]. *)
Definition story_script (key t : string) (paragraphs : list string) : script_tag :=
  Json (VDict [(key, VDict [("story",
    VDict [("title", VStr t);
           ("astDescription",
            VDict [("children", VList (map paragraph_node paragraphs))])])])]).

(** A story that has a title and no description tree. *)
Definition title_only_script (key t : string) : script_tag :=
  Json (VDict [(key, VDict [("story", VDict [("title", VStr t)])])]).

(** A story that has paragraphs and no title. *)
Definition untitled_script (key : string) (paragraphs : list string) : script_tag :=
  Json (VDict [(key, VDict [("story",
    VDict [("astDescription",
            VDict [("children", VList (map paragraph_node paragraphs))])])])]).

(** A story whose description tree has a bare text among its nodes. *)
Definition text_node_script : script_tag :=
  Json (VDict [("a", VDict [("story",
    VDict [("title", VStr "T");
           ("astDescription", VDict [("children", VList [VStr "x"])])])])]).

(** Three blocks: a title alone, paragraphs alone, a complete story. *)
Definition leaking_scripts : list script_tag :=
  [title_only_script "a" "A"; untitled_script "b" ["x"];
   story_script "c" "T" ["p1"]].

(** A document that has the given script tags and none of the tags of the
    second tier. *)
Definition scripts_only (tags : list script_tag) : soup :=
  {| scripts := tags; h1_title_KX2tCBZq := None;
     h1_tv_news_article_title := None; h1_any := None;
     div_body_KX2tCBZq := None |}.

(** The paragraphs the tag tier adds. *)
Definition body_paragraphs (doc : soup) : list string :=
  filter (fun p => str_truthy p = true) (default [] (div_body_KX2tCBZq doc)).

(** The result of the tag tier when the structured-data tier left [st]
    behind. *)
Definition fallback_result (doc : soup) (st : locals) : extraction :=
  let t := match title_tag doc with
           | Some text => VStr text
           | None => var_title st
           end in
  match content_paragraphs st ++ body_paragraphs doc with
  | [] => {| title := if truthy t then t else VStr "No Title Found";
             content := no_content_message |}
  | p :: ps => {| title := t; content := join nl (p :: ps) |}
  end.

End Extractor.

Module Store.
Import Py Database.

(** The links the table holds, in rowid order. *)
Definition links (d : db) : list string := map link (rows d).

(** The text a candidate's ['link'] is bound to, when it is a text. *)
Definition bound_link (item : gmap string value) : option string :=
  match adapt (get item "link") with
  | Some (Some l) => Some l
  | _ => None
  end.

(** The row an [INSERT] of the candidate writes under rowid [n], when every
    parameter binds and no [NOT NULL] column receives [NULL]. *)
Definition row_of (now : string) (n : nat) (item : gmap string value) : option row :=
  match adapt (get item "symbol"), adapt (get item "title"),
        adapt (get item "content"), adapt (get item "link"),
        adapt (get item "source"), adapt (get item "published") with
  | Some (Some sy), Some (Some ti), Some co, Some (Some li), Some so, Some pu =>
      Some {| id := n; symbol := sy; title := ti; content := co;
              summary := None; link := li; source := so;
              published_at := pu; created_at := Some now |}
  | _, _, _, _, _, _ => None
  end.

(** A candidate whose insert can only fail on the uniqueness of its link. *)
Definition storable (item : gmap string value) : bool :=
  match row_of "" 0 item with Some _ => true | None => false end.

(** The number of candidates of a batch that meet their link in the table:
    stored before the call, or stored by an earlier candidate of the batch. *)
Fixpoint duplicates (stored : list string) (items : list (gmap string value)) : nat :=
  match items with
  | [] => 0
  | item :: rest =>
      match bound_link item with
      | Some l =>
          if bool_decide (l ∈ stored) then S (duplicates stored rest)
          else duplicates (stored ++ [l]) rest
      | None => duplicates stored rest
      end
  end.

(** The candidates of a batch whose link is in [stored]. *)
Definition already_stored (stored : list string) (item : gmap string value) : bool :=
  match bound_link item with
  | Some l => bool_decide (l ∈ stored)
  | None => false
  end.

(** A row that an [INSERT] of some candidate of the batch writes. *)
Definition written_from (now : string) (batch : list (gmap string value))
    (r : row) : Prop :=
  exists item n, item ∈ batch /\ row_of now n item = Some r.

(** The number of rows that hold link [l]. *)
Definition rows_with_link (l : string) (d : db) : nat :=
  length (filter (fun r => link r = l) (rows d)).

(** The operations of the store. The two queries read only. *)
Inductive operation :=
| Initialize
| Append (now : string) (news_items : list (gmap string value))
| SetSummary (news_id : nat) (new_summary : string)
| ListUnenriched
| QueryByDateRange (start_date_str end_date_str : string) (sym : option string).

Definition apply_operation (d : db) (op : operation) : db :=
  match op with
  | Initialize => (init_db (Some d)).1
  | Append now news_items => (save_news now d news_items).1.1
  | SetSummary news_id new_summary => (update_news_summary d news_id new_summary).1
  | ListUnenriched => d
  | QueryByDateRange _ _ _ => d
  end.

(** The store after a history of operations on a fresh database file. *)
Definition run_operations (ops : list operation) : db :=
  fold_left apply_operation ops (init_db None).1.

(** A candidate as the news-list collaborator's items are turned into. *)
Definition candidate (sy ti li : string) : gmap string value :=
  {[ "symbol" := VStr sy; "title" := VStr ti; "link" := VStr li ]}.

(** A candidate that carries its timestamp under ['published_at']. *)
Definition candidate_published_at (sy ti li ts : string) : gmap string value :=
  <["published_at" := VStr ts]> (candidate sy ti li).

End Store.

Module Timestamps.
Import Py Database.

(** A calendar day and a time of that day, as the fields of a [datetime]. *)
Record day := { year : nat; month : nat; day_of_month : nat }.

Record timestamp := { date : day; hour : nat; minute : nat; second : nat }.

Definition valid_day (d : day) : Prop :=
  1000 <= year d < 100 * 100 /\ 1 <= month d <= 12 /\ 1 <= day_of_month d <= 31.

Definition valid_timestamp (t : timestamp) : Prop :=
  valid_day (date t) /\ hour t <= 23 /\ minute t <= 59 /\ second t <= 59.

(** Zero-padded decimal fields, as [strftime] prints them (a year of four
    digits needs no padding). *)
Definition digit (n : nat) : ascii := ascii_of_nat (48 + n mod 10).

Definition two_digits (n : nat) : string :=
  String (digit (n / 10)) (String (digit n) "").

Definition four_digits (n : nat) : string :=
  two_digits (n / 100) +:+ two_digits (n mod 100).

(** ['%Y-%m-%d']: the form of [start_date_str] and [end_date_str]. *)
Definition format_day (d : day) : string :=
  four_digits (year d) +:+ "-" +:+ two_digits (month d) +:+ "-"
  +:+ two_digits (day_of_month d).

(** [strftime('%Y-%m-%d %H:%M:%S UTC')], the form in which
    [fetch_tradingview_news] writes ['published'] (line 195). *)
Definition format_timestamp (t : timestamp) : string :=
  format_day (date t) +:+ " " +:+ two_digits (hour t) +:+ ":"
  +:+ two_digits (minute t) +:+ ":" +:+ two_digits (second t) +:+ " UTC".

(** Chronological order: the order of the fields, most significant first. *)
Definition fields (t : timestamp) : list nat :=
  [year (date t); month (date t); day_of_month (date t);
   hour t; minute t; second t].

Fixpoint compare_fields (a b : list nat) : comparison :=
  match a, b with
  | [], [] => Eq
  | [], _ :: _ => Lt
  | _ :: _, [] => Gt
  | x :: a', y :: b' =>
      match Nat.compare x y with
      | Eq => compare_fields a' b'
      | c => c
      end
  end.

Definition not_after (a b : timestamp) : bool :=
  match compare_fields (fields a) (fields b) with
  | Gt => false
  | _ => true
  end.

Definition start_of_day (d : day) : timestamp :=
  {| date := d; hour := 0; minute := 0; second := 0 |}.

Definition end_of_day (d : day) : timestamp :=
  {| date := d; hour := 23; minute := 59; second := 59 |}.

(** [t] lies within [[first 00:00:00, last 23:59:59]]. *)
Definition in_window (first last : day) (t : timestamp) : bool :=
  not_after (start_of_day first) t && not_after t (end_of_day last).

(** The claim's selection: the rows stamped within the window and, when a
    symbol is asked for, of exactly that symbol. *)
Definition selected_by_calendar (first last : day) (sym : option string)
    (stamp : row -> option timestamp) (r : row) : bool :=
  match stamp r with
  | Some t =>
      in_window first last t &&
      match sym with
      | Some s => bool_decide (symbol r = s)
      | None => true
      end
  | None => false
  end.

(** The code points of a text and their lexicographic order. *)
Fixpoint codes (s : string) : list N :=
  match s with
  | EmptyString => []
  | String c s' => N_of_ascii c :: codes s'
  end.

Fixpoint lex_le (a b : list N) : bool :=
  match a, b with
  | [], _ => true
  | _ :: _, [] => false
  | x :: a', y :: b' => (x <? y)%N || ((x =? y)%N && lex_le a' b')
  end.

(** All pairs of two-digit fields print in the order of their values. *)
Definition comparison_eqb (a b : comparison) : bool :=
  match a, b with
  | Eq, Eq | Lt, Lt | Gt, Gt => true
  | _, _ => false
  end.

Definition two_digits_ordered : bool :=
  forallb (fun n =>
    forallb (fun m =>
      comparison_eqb (String.compare (two_digits n) (two_digits m))
                     (Nat.compare n m))
      (List.seq 0 100))
    (List.seq 0 100).

(** A plain row with the given symbol and timestamp text. *)
Definition stamped_row (n : nat) (sy ti : string) (p : option string) : row :=
  {| id := n; symbol := sy; title := ti; content := Some "body";
     summary := Some "summary"; link := ti; source := None;
     published_at := p; created_at := None |}.

(** Rows around the boundaries of 2025-08-01, for two symbols. *)
Definition boundary_db : db :=
  {| rows := [stamped_row 1 "AAPL" "first second" (Some "2025-08-01 00:00:00 UTC");
              stamped_row 2 "AAPL" "last second" (Some "2025-08-01 23:59:59 UTC");
              stamped_row 3 "AAPL" "next day" (Some "2025-08-02 00:00:00 UTC");
              stamped_row 4 "TSLA" "other symbol" (Some "2025-08-01 12:00:00 UTC");
              stamped_row 5 "AAPL" "no timestamp" None];
     seq := 5 |}.

Definition boundary_stamp (r : row) : option timestamp :=
  let aug d h m s :=
    Some {| date := {| year := 2025; month := 8; day_of_month := d |};
            hour := h; minute := m; second := s |} in
  match id r with
  | 1 => aug 1 0 0 0
  | 2 => aug 1 23 59 59
  | 3 => aug 2 0 0 0
  | 4 => aug 1 12 0 0
  | _ => None
  end.

(** Rows whose timestamp is stored in other forms. *)
Definition other_formats_db : db :=
  {| rows := [stamped_row 1 "AAPL" "ISO noon" (Some "2025-08-01T12:00:00Z");
              stamped_row 2 "AAPL" "midnight, no zone" (Some "2025-08-01 00:00:00");
              stamped_row 3 "AAPL" "last second, no zone" (Some "2025-08-01 23:59:59");
              stamped_row 4 "AAPL" "epoch seconds" (Some "1754049600")];
     seq := 4 |}.

End Timestamps.

Module Pipeline.
Import Py Database LlmService NewsProcessor.

(** A service whose model, when it is asked and answers, answers with more
    than white space. *)
Definition never_blank (self : LLMService) : Prop :=
  no_api_key self = false ->
  forall sent req c,
    chat self sent req = MessageContent (Some c) -> str_truthy (strip c) = true.

(** Every row of the backlog has a content. *)
Definition backlog_has_content (d : db) : Prop :=
  forall r, r ∈ rows d -> summary_missing r = true -> content r <> None.

(** [r'] is the row [r] with a summary, the one it had or a new one. *)
Definition resolved (r r' : row) : Prop :=
  summary_missing r' = false /\ (r' = r \/ exists s, r' = set_summary s r).

(** The requests the enrich phase sends for a backlog. *)
Definition backlog_requests (backlog : list unsummarized) : list request :=
  map (fun u => summarize_request (u_content u)) backlog.

(** A row that waits for its summary. *)
Definition pending_row (n : nat) (li body : string) : row :=
  {| id := n; symbol := "AAPL"; title := li; content := Some body;
     summary := None; link := li; source := None;
     published_at := None; created_at := None |}.

Definition pending_db : db :=
  {| rows := [pending_row 1 "http://example.com/1" "text one";
              pending_row 2 "http://example.com/2" "text two"];
     seq := 2 |}.

(** A configured service whose model answers with white space. *)
Definition blank_service : LLMService :=
  {| api_key := Some "key"; model_name := "gpt-5";
     chat := fun _ _ => MessageContent (Some "  ") |}.

(** A configured service whose model fails on every request. *)
Definition failing_service : LLMService :=
  {| api_key := Some "key"; model_name := "gpt-5";
     chat := fun _ _ => ApiFailure |}.

Definition no_news : news_data := {| nd_symbol := Some (VStr "AAPL"); nd_news := [] |}.


(** A pending row without content. *)
Definition bare_row (n : nat) (li : string) : row :=
  {| id := n; symbol := "AAPL"; title := li; content := None;
     summary := None; link := li; source := None;
     published_at := None; created_at := Some "now" |}.


End Pipeline.

Module Keys.
Import Py Database Store.

(** The rowids of the table, in table order. *)
Definition ids (d : db) : list nat := map id (rows d).

(** Rowids grow along the table, start at 1 and stay below the counter. *)
Definition well_keyed (d : db) : Prop :=
  (forall i j ri rj,
     rows d !! i = Some ri -> rows d !! j = Some rj -> i < j -> id ri < id rj)
  /\ Forall (fun n => 1 <= n <= seq d) (ids d).

(** The dictionary [get_unsmarized_news] builds from a row. *)
Definition backlog_entry (r : row) : unsummarized :=
  {| u_id := id r; u_title := title r; u_content := content r |}.

(** A candidate that carries its timestamp under ['published']. *)
Definition candidate_published (sy ti li ts : string) : gmap string value :=
  <["published" := VStr ts]> (candidate sy ti li).

(** [a] is a day before [b]. *)
Definition earlier_day (a b : Timestamps.day) : bool :=
  match Timestamps.compare_fields
          [Timestamps.year a; Timestamps.month a; Timestamps.day_of_month a]
          [Timestamps.year b; Timestamps.month b; Timestamps.day_of_month b] with
  | Lt => true
  | _ => false
  end.

End Keys.

Module Report.
Import Py Database LlmService.

(** The two lines of the report prompt for the item at index [i]. *)
Definition report_line (i : nat) (item : news_summary) : string :=
  pretty (S i) +:+ ". " +:+ ns_title item +:+ nl
  +:+ "   Summary: " +:+ fmt_opt (ns_summary item) +:+ nl.

End Report.

Module Tiers.
Import Py FetchHtmlContent Extractor.

(** Locals whose collected paragraphs are all non-empty. *)
Definition clean (st : locals) : Prop :=
  Forall (fun p => str_truthy p = true) (content_paragraphs st).

(** A piece of the body that keeps the locals clean, ends normally only with
    a value that satisfies [Q], and returns only results with a content. *)
Definition keeps {A} (m : M A) (Q : A -> Prop) : Prop :=
  forall st st' sig,
    clean st -> m st = (st', sig) ->
    clean st'
    /\ match sig with
       | Normal a => Q a
       | Return r => str_truthy (content r) = true
       | Raise _ => True
       end.

(** Parsed data that is no container: [null], a boolean, a number, a text. *)
Definition scalar (data : value) : Prop :=
  match data with
  | VNone | VBool _ | VInt _ | VStr _ => True
  | VList _ | VDict _ => False
  end.

(** A value that [entry_step] passes over: not a [dict], or one without a
    ['story'] key. *)
Definition no_story (v : value) : Prop :=
  match v with
  | VDict kv => assoc "story" kv = None
  | _ => True
  end.

(** The result of the tag tier on its own. *)
Definition tag_result (doc : soup) : extraction :=
  match body_paragraphs doc with
  | [] =>
      {| title := match title_tag doc with
                  | Some t => if str_truthy t then VStr t else VStr "No Title Found"
                  | None => VStr "No Title Found"
                  end;
         content := no_content_message |}
  | p :: ps =>
      {| title := VStr (default "" (title_tag doc));
         content := join nl (p :: ps) |}
  end.

End Tiers.

Module Feed.
Import Py FetchHtmlContent Extractor FetchNews.

(** [t] lies within [[start_time, end_time]]. *)
Definition within (start_time end_time t : datetime) : bool :=
  negb (before t start_time) && negb (before end_time t).

(** The items of the feed the loop keeps: stamped within the window, with a
    link that is a text of the expected domain. *)
Definition selected (w : world) (start_time end_time : datetime) (item : value)
  : bool :=
  match published_dt w item, resolve_link w item with
  | inr t, inr (VStr l) => within start_time end_time t && is_prefix base_url l
  | _, _ => false
  end.

(** The entry appended for an item: its timestamp printed, its link and the
    content of the page behind the link. *)
Definition entry_of (w : world) (item : value) (entry : gmap string value) : Prop :=
  exists t l c,
    published_dt w item = inr t
    /\ resolve_link w item = inr (VStr l)
    /\ entry !! "published" = Some (VStr (strftime t))
    /\ entry !! "link" = Some (VStr l)
    /\ entry !! "content" = Some (VStr c)
    /\ str_truthy c = true.

(** An item the loop gets past: its ['published'] converts, and when it is
    stamped within the window its link resolves to a text and, when that
    text is of the expected domain, its related symbols join. *)
Definition passable (w : world) (start_time end_time : datetime) (item : value)
  : Prop :=
  exists t,
    published_dt w item = inr t
    /\ (within start_time end_time t = true ->
        exists l,
          resolve_link w item = inr (VStr l)
          /\ (is_prefix base_url l = true ->
              exists related, related_symbols item = inr related)).

(** The start of the window: 9:30 on the target day. *)
Definition opening (target_year target_month target_day : nat) : datetime :=
  {| year := target_year; month := target_month; day := target_day;
     hour := 9; minute := 30; second := 0 |}.

(** The items of the feed: what iterating over [body.get("items", [])] gives. *)
Definition feed_items (body : value) : exn + list value :=
  match get_or body "items" (VList []) with
  | inl e => inl e
  | inr news_items => iterate news_items
  end.

(** The entry was built from the page behind [url]. *)
Definition links_to (entry : gmap string value) (url : string) : Prop :=
  entry !! "link" = Some (VStr url).

(** The library at the points the example feed touches. *)
Definition example_world : world :=
  {| utcfromtimestamp := fun z =>
       if (z =? 1753957212)%Z then
         Some {| year := 2025; month := 7; day := 31;
                 hour := 10; minute := 20; second := 12 |}
       else if (z =? 1753892412)%Z then
         Some {| year := 2025; month := 7; day := 30;
                 hour := 16; minute := 20; second := 12 |}
       else None;
     plus_days := fun t n =>
       if (n =? 1)%Z then
         Some {| year := 2025; month := 8; day := 1;
                 hour := hour t; minute := minute t; second := second t |}
       else None;
     repr := fun _ => "";
     fetch_html_content := fun _ _ =>
       Html (scripts_only [story_script "data" "T" ["p1"; "p2"]]) |}.

(** The same library when no page can be retrieved. *)
Definition offline_world : world :=
  {| utcfromtimestamp := utcfromtimestamp example_world;
     plus_days := plus_days example_world;
     repr := repr example_world;
     fetch_html_content := fun _ _ => EmptyHtml |}.

(** No page can be retrieved: [fetch_html_content] gives nothing for any url. *)
Definition offline (w : world) : Prop :=
  forall fetched url, fetch_html_content w fetched url = EmptyHtml.

Definition failed_content : string := "Failed to retrieve HTML content.".

(** A feed of three items: one in the window with a story path, one of the
    day before, one in the window that links elsewhere. *)
Definition example_items : list value :=
  [ VDict [("published", VInt 1753957212); ("title", VStr "kept");
           ("storyPath", VStr "/news/one");
           ("relatedSymbols", VList [VDict [("symbol", VStr "NASDAQ:AAPL")];
                                     VDict [("symbol", VStr "NASDAQ:MSFT")]])];
    VDict [("published", VInt 1753892412); ("title", VStr "too early");
           ("storyPath", VStr "/news/two")];
    VDict [("published", VInt 1753957212); ("title", VStr "elsewhere");
           ("link", VStr "https://example.com/three")] ].

Definition example_feed : value := VDict [("items", VList example_items)].

Definition example_close : datetime :=
  {| year := 2025; month := 8; day := 1; hour := 9; minute := 30; second := 0 |}.

(** What the fetch returns for the example feed when no page can be
    retrieved. *)
Definition offline_news : all_news :=
  {| an_symbol := "AAPL";
     an_start_time := "2025-07-31T09:30:00";
     an_end_time := "2025-08-01T09:30:00";
     an_news :=
       [ {[ "title" := VStr "kept";
            "source" := VStr "Unknown Source";
            "published" := VStr "2025-07-31 10:20:12 UTC";
            "related_symbols" := VStr "NASDAQ:AAPL, NASDAQ:MSFT";
            "link" := VStr "https://www.tradingview.com/news/one";
            "content" := VStr failed_content ]} ] |}.

(** What the fetch returns for the example feed on 2025-07-31. *)
Definition example_news : all_news :=
  {| an_symbol := "AAPL";
     an_start_time := "2025-07-31T09:30:00";
     an_end_time := "2025-08-01T09:30:00";
     an_news :=
       [ {[ "title" := VStr "kept";
            "source" := VStr "Unknown Source";
            "published" := VStr "2025-07-31 10:20:12 UTC";
            "related_symbols" := VStr "NASDAQ:AAPL, NASDAQ:MSFT";
            "link" := VStr "https://www.tradingview.com/news/one";
            "content" := VStr ("p1" +:+ FetchHtmlContent.nl +:+ "p2") ]} ] |}.

End Feed.

(* ===================================================================== *)
(** * Properties of the extractor                                         *)
(* ===================================================================== *)

Section ExtractorFacts.
Import Py FetchHtmlContent Extractor.

Lemma for_each_app {A} (l1 l2 : list A) (body : A -> M unit) st :
  for_each (l1 ++ l2) body st = (for_each l1 body ;;; for_each l2 body) st.
Proof.
  revert st. induction l1 as [|x l1 IH]; intros st; simpl.
  - reflexivity.
  - unfold bind in *. destruct (body x st) as [st' [[]|r|e]]; try reflexivity.
    apply IH.
Qed.

Lemma for_each_inert pre :
  Forall inert pre ->
  for_each pre script_step initial_locals = (initial_locals, Normal tt).
Proof.
  induction 1 as [|b pre Hb _ IH]; simpl.
  - reflexivity.
  - unfold bind. rewrite Hb. exact IH.
Qed.

Lemma append_empty (s : string) : (s +:+ "")%string = s.
Proof.
  induction s as [|c s IH]; [reflexivity |].
  change (String c (s +:+ "") = String c s). f_equal. exact IH.
Qed.

(** A well-formed paragraph node appends its text. *)
Lemma paragraph_step_node p st :
  str_truthy p = true ->
  paragraph_step (paragraph_node p) st
  = ({| var_title := var_title st;
        content_paragraphs := content_paragraphs st ++ [p] |}, Normal tt).
Proof.
  intros Hp. unfold paragraph_step, paragraph_node. cbn.
  rewrite append_empty, Hp. reflexivity.
Qed.

(** The walk over well-formed paragraph nodes appends one line per node. *)
Lemma for_each_paragraph_nodes paragraphs st :
  Forall (fun p => str_truthy p = true) paragraphs ->
  for_each (map paragraph_node paragraphs) paragraph_step st
  = ({| var_title := var_title st;
        content_paragraphs := content_paragraphs st ++ paragraphs |}, Normal tt).
Proof.
  intros H. revert st. induction H as [|p ps Hp _ IH]; intros st.
  - simpl. rewrite app_nil_r. destruct st; reflexivity.
  - change (for_each (map paragraph_node (p :: ps)) paragraph_step st)
      with ((paragraph_step (paragraph_node p) ;;;
             for_each (map paragraph_node ps) paragraph_step) st).
    unfold bind. rewrite (paragraph_step_node p st Hp), IH. cbn.
    rewrite <- app_assoc. reflexivity.
Qed.

Lemma null_app_r {A} (l1 l2 : list A) : l2 <> [] -> null (l1 ++ l2) = false.
Proof. intros H. destruct l1; [destruct l2; [congruence | reflexivity] | reflexivity]. Qed.

(** A story with a title and paragraphs returns them, after whatever
    paragraphs the locals already hold. *)
Lemma story_step_returns t paragraphs st :
  str_truthy t = true ->
  paragraphs <> [] ->
  Forall (fun p => str_truthy p = true) paragraphs ->
  story_step
    (VDict [("title", VStr t);
            ("astDescription",
             VDict [("children", VList (map paragraph_node paragraphs))])]) st
  = ({| var_title := VStr t;
        content_paragraphs := content_paragraphs st ++ paragraphs |},
     Return {| title := VStr (strip t);
               content := join nl (content_paragraphs st ++ paragraphs) |}).
Proof.
  intros Ht Hne Hall. unfold story_step. cbn.
  unfold bind. cbn.
  rewrite for_each_paragraph_nodes by exact Hall. cbn.
  rewrite Ht, (null_app_r _ _ Hne). reflexivity.
Qed.

(** A block with one entry that holds a story runs the story. *)
Lemma script_step_one_story key story st :
  script_step (Json (VDict [(key, VDict [("story", story)])])) st
  = try_except caught (story_step story ;;; ret tt) st.
Proof.
  unfold script_step, try_except. cbn. unfold entry_step. cbn.
  rewrite String.eqb_refl. cbn. reflexivity.
Qed.

Lemma story_script_returns key t paragraphs st :
  str_truthy t = true ->
  paragraphs <> [] ->
  Forall (fun p => str_truthy p = true) paragraphs ->
  script_step (story_script key t paragraphs) st
  = ({| var_title := VStr t;
        content_paragraphs := content_paragraphs st ++ paragraphs |},
     Return {| title := VStr (strip t);
               content := join nl (content_paragraphs st ++ paragraphs) |}).
Proof.
  intros Ht Hne Hall. unfold story_script.
  rewrite script_step_one_story. unfold try_except, bind.
  rewrite story_step_returns by assumption. reflexivity.
Qed.

(** The loop of the tag tier keeps the non-empty paragraph texts. *)
Lemma for_each_body_paragraphs texts st :
  for_each texts
    (fun p => when (str_truthy p) (append_paragraph p)) st
  = ({| var_title := var_title st;
        content_paragraphs :=
          content_paragraphs st ++ filter (fun p => str_truthy p = true) texts |},
     Normal tt).
Proof.
  revert st. induction texts as [|p ps IH]; intros st.
  - cbn. rewrite app_nil_r. destruct st; reflexivity.
  - cbn [for_each]. unfold bind. rewrite filter_cons.
    destruct (str_truthy p) eqn:Hp; cbn.
    + rewrite IH. cbn. rewrite decide_True by reflexivity.
      rewrite <- app_assoc. reflexivity.
    + rewrite IH. rewrite decide_False by discriminate. reflexivity.
Qed.

(** The tag tier, as a function of the locals it starts from. *)
Lemma tag_tier_result doc st :
  exists st', tag_tier doc st = (st', Return (fallback_result doc st)).
Proof.
  unfold tag_tier, fallback_result, body_paragraphs, bind.
  destruct (title_tag doc) as [t|]; cbn;
    (destruct (div_body_KX2tCBZq doc) as [texts|]; cbn;
     [ rewrite for_each_body_paragraphs; cbn
     | rewrite app_nil_r ]);
    match goal with
    | |- context [match ?l with [] => _ | _ :: _ => _ end] => destruct l
    end; eexists; reflexivity.
Qed.

(** An exception that leaves a script tag is one the handler does not list. *)
Lemma script_step_raises script st st' e :
  script_step script st = (st', Raise e) -> caught e = false.
Proof.
  unfold script_step, try_except.
  destruct (bind _ _ st) as [st1 [[]|r|e1]]; try discriminate.
  destruct (caught e1) eqn:Hc; [discriminate |].
  intros [= _ <-]. exact Hc.
Qed.

Lemma json_tier_raises tags st st' e :
  for_each tags script_step st = (st', Raise e) -> caught e = false.
Proof.
  revert st. induction tags as [|b tags IH]; intros st; cbn [for_each].
  - discriminate.
  - unfold bind. destruct (script_step b st) as [st1 [[]|r|e1]] eqn:Hb.
    + apply IH.
    + discriminate.
    + intros [= _ <-]. eapply script_step_raises, Hb.
Qed.

(** C3. The extractor does raise. On a document whose only structured-data
    block holds a story with a bare text among the nodes of its description
    tree, [paragraph_node.get] fails with [AttributeError], which the handler
    of line 95 does not list, and the exception leaves [parse_news_html]
    instead of a placeholder result; a block that holds the list [[1]] leaves
    it with [IndexError]. These two classes are the only ones that get out. *)
Theorem parse_news_html_raises_on_text_node :
  parse_news_html (Html (scripts_only [text_node_script])) = inl AttributeError
  /\ parse_news_html (Html (scripts_only [Json (VList [VInt 1])])) = inl IndexError
  /\ forall html_content e,
       parse_news_html html_content = inl e ->
       e = AttributeError \/ e = IndexError.
Proof.
  split; [reflexivity | split; [reflexivity |]].
  intros [|doc] e; [discriminate |].
  unfold parse_news_html, json_tier, bind.
  destruct (for_each (scripts doc) script_step initial_locals)
    as [st [[]|r|e1]] eqn:Htier.
  - destruct (tag_tier_result doc st) as [st' ->]. discriminate.
  - discriminate.
  - intros [= <-]. apply json_tier_raises in Htier.
    destruct e1; try discriminate Htier; auto.
Qed.

(** C4, as stated, fails: of three blocks the third is the first that yields
    a title and content on its own, yet the function returns at the second,
    with the title the first block left behind. *)
Lemma short_circuit_counterexample :
  block_yields (title_only_script "a" "A") = None
  /\ block_yields (untitled_script "b" ["x"]) = None
  /\ block_yields (story_script "c" "T" ["p1"])
     = Some {| title := VStr "T"; content := "p1" |}
  /\ parse_news_html (Html (scripts_only leaking_scripts))
     = inr {| title := VStr "A"; content := "x" |}.
Proof.
  repeat split.
Qed.

(** C4, amended. When the blocks before it contribute nothing, the first
    block that yields a title and content on its own is returned at once,
    whatever blocks and tags follow; in particular a story block with title
    [t] and paragraph nodes [paragraphs] extracts to the stripped title and
    the paragraphs joined by line feeds. *)
Theorem first_yielding_block_is_returned doc pre b post :
  scripts doc = pre ++ b :: post ->
  Forall inert pre ->
  (forall r, block_yields b = Some r -> parse_news_html (Html doc) = inr r)
  /\ (forall key t paragraphs,
        b = story_script key t paragraphs ->
        str_truthy t = true ->
        paragraphs <> [] ->
        Forall (fun p => str_truthy p = true) paragraphs ->
        parse_news_html (Html doc)
        = inr {| title := VStr (strip t); content := join nl paragraphs |}).
Proof.
  intros Hdoc Hpre.
  assert (Hgen : forall r, block_yields b = Some r ->
                           parse_news_html (Html doc) = inr r).
  { intros r Hb. unfold parse_news_html, json_tier. rewrite Hdoc.
    unfold bind at 1. rewrite for_each_app. unfold bind at 1.
    rewrite (for_each_inert pre Hpre). cbn [for_each]. unfold bind at 1.
    unfold block_yields in Hb.
    destruct (script_step b initial_locals) as [st' [[]|r'|e]];
      try discriminate.
    congruence. }
  split; [exact Hgen |].
  intros key t paragraphs -> Ht Hne Hall. apply Hgen.
  unfold block_yields. rewrite story_script_returns by assumption.
  reflexivity.
Qed.

Lemma first_yielding_block_is_returned_witness :
  parse_news_html
    (Html (scripts_only [Malformed; story_script "data" "T" ["p1"; "p2"]; NoString]))
  = inr {| title := VStr "T"; content := "p1" +:+ nl +:+ "p2" |}.
Proof.
  refine (proj2 (first_yielding_block_is_returned
                   (scripts_only [Malformed; story_script "data" "T" ["p1"; "p2"]; NoString])
                   [Malformed] (story_script "data" "T" ["p1"; "p2"]) [NoString]
                   eq_refl _)
                "data" "T" ["p1"; "p2"] eq_refl eq_refl _ _).
  - constructor; [reflexivity | constructor].
  - discriminate.
  - repeat constructor.
Defined.





End ExtractorFacts.

(* ===================================================================== *)
(** * Properties of the store                                             *)
(* ===================================================================== *)

Section StoreFacts.
Import Py Database Store.

(** Case analysis on what the six parameters of the [INSERT] bind to. *)
Ltac case_parameters item :=
  destruct (adapt (get item "symbol")) as [[?|]|];
  destruct (adapt (get item "title")) as [[?|]|];
  destruct (adapt (get item "content")) as [?|];
  destruct (adapt (get item "link")) as [[?|]|];
  destruct (adapt (get item "source")) as [?|];
  destruct (adapt (get item "published")) as [?|].

(** One insert, in terms of the row it would write. *)
Lemma execute_insert_row_of now d item r :
  row_of now (S (seq d)) item = Some r ->
  execute_insert now d item
  = if bool_decide (link r ∈ links d) then (d, IntegrityError)
    else ({| rows := rows d ++ [r]; seq := S (seq d) |}, Inserted).
Proof.
  unfold row_of, execute_insert, links.
  case_parameters item; try discriminate.
  intros [= <-]. reflexivity.
Qed.

(** The row written holds under [published_at] what ['published'] bound to. *)
Lemma row_of_published now n item r :
  row_of now n item = Some r ->
  adapt (get item "published") = Some (published_at r).
Proof.
  unfold row_of. case_parameters item; try discriminate.
  intros [= <-]. reflexivity.
Qed.

Lemma written_from_cons now item batch new :
  Forall (written_from now batch) new ->
  Forall (written_from now (item :: batch)) new.
Proof.
  intros H. eapply Forall_impl; [exact H |].
  intros r (item' & n & Hin & Hr). exists item', n.
  split; [right; exact Hin | exact Hr].
Qed.

Lemma storable_row_of now n item :
  storable item = true ->
  exists r, row_of now n item = Some r
            /\ bound_link item = Some (link r)
            /\ id r = n
            /\ published_at r = default None (adapt (get item "published")).
Proof.
  unfold storable, row_of, bound_link.
  case_parameters item; try discriminate.
  intros _. eexists. repeat split.
Qed.

Lemma links_snoc d r n :
  links {| rows := rows d ++ [r]; seq := n |} = links d ++ [link r].
Proof. unfold links. cbn. rewrite map_app. reflexivity. Qed.

(** The loop over a batch of storable candidates: what it counts, what it
    appends and what it prints. *)
Lemma save_loop_storable now batch :
  forall d k,
    Forall (fun item => storable item = true) batch ->
    exists d' out new,
      save_loop now d batch k
      = (d', k + (length batch - duplicates (links d) batch), out)
      /\ rows d' = rows d ++ new
      /\ length new = length batch - duplicates (links d) batch
      /\ duplicates (links d) batch <= length batch
      /\ Forall (fun e => exists t l, e = PrintSkippingDuplicate t l) out
      /\ Forall (written_from now batch) new.
Proof.
  induction batch as [|item rest IH]; intros d k Hall.
  - exists d, [], []. cbn. rewrite app_nil_r, Nat.add_0_r.
    repeat split; constructor.
  - inversion Hall as [|? ? Hitem Hrest]; subst.
    destruct (storable_row_of now (S (seq d)) item Hitem)
      as (r & Hrow & Hlink & _ & _).
    cbn [save_loop duplicates]. rewrite Hlink.
    rewrite (execute_insert_row_of now d item r Hrow).
    destruct (bool_decide (link r ∈ links d)) eqn:Hdup.
    + destruct (IH d k Hrest) as (d' & out & new & Hloop & Hrows & Hlen & Hle & Hout & Hnew).
      rewrite Hloop. eexists d', _, new. cbn [length].
      rewrite Nat.sub_succ.
      repeat split.
      * exact Hrows.
      * exact Hlen.
      * lia.
      * constructor; [eauto | exact Hout].
      * apply written_from_cons, Hnew.
    + destruct (IH {| rows := rows d ++ [r]; seq := S (seq d) |} (S k) Hrest)
        as (d' & out & new & Hloop & Hrows & Hlen & Hle & Hout & Hnew).
      rewrite links_snoc in Hloop, Hlen, Hle.
      rewrite Hloop. exists d', out, (r :: new). cbn [length].
      cbn [rows] in Hrows.
      replace (k + (S (length rest) - duplicates (links d ++ [link r]) rest))
        with (S k + (length rest - duplicates (links d ++ [link r]) rest)) by lia.
      repeat split.
      * rewrite Hrows, <- app_assoc. reflexivity.
      * cbn [length]. lia.
      * lia.
      * exact Hout.
      * constructor.
        -- exists item, (S (seq d)). split; [left | exact Hrow].
        -- apply written_from_cons, Hnew.
Qed.

Lemma filter_already_stored_snoc stored l (batch : list (gmap string value)) :
  l ∉ omap bound_link batch ->
  filter (fun item => already_stored (stored ++ [l]) item = true) batch
  = filter (fun item => already_stored stored item = true) batch.
Proof.
  induction batch as [|item rest IH]; intros Hl; [reflexivity |].
  cbn [omap list_omap] in Hl. rewrite !filter_cons.
  assert (Hsame : already_stored (stored ++ [l]) item = already_stored stored item).
  { unfold already_stored. destruct (bound_link item) as [l'|]; [|reflexivity].
    apply bool_decide_ext. rewrite elem_of_app, list_elem_of_singleton.
    split; [intros [H | ->]; [exact H | exfalso; apply Hl; left] | tauto]. }
  assert (Hrest : l ∉ omap bound_link rest).
  { intros Hin. apply Hl. destruct (bound_link item); [right |]; exact Hin. }
  rewrite (IH Hrest).
  destruct (decide (already_stored (stored ++ [l]) item = true)) as [H1 | H1];
    destruct (decide (already_stored stored item = true)) as [H2 | H2];
    congruence.
Qed.

(** In a batch of pairwise distinct links the duplicates are the candidates
    whose link the table held before the call. *)
Lemma duplicates_distinct_links (batch : list (gmap string value)) :
  forall stored,
    NoDup (omap bound_link batch) ->
    duplicates stored batch
    = length (filter (fun item => already_stored stored item = true) batch).
Proof.
  induction batch as [|item rest IH]; intros stored Hnd; [reflexivity |].
  cbn [duplicates omap list_omap] in *. rewrite filter_cons.
  assert (Has : already_stored stored item
                = match bound_link item with
                  | Some l => bool_decide (l ∈ stored)
                  | None => false
                  end) by reflexivity.
  destruct (bound_link item) as [l|].
  - apply NoDup_cons in Hnd as [Hnotin Hnd].
    destruct (decide (already_stored stored item = true)) as [Hyes | Hno];
      rewrite Has in *.
    + rewrite Hyes. cbn [length]. f_equal. apply IH, Hnd.
    + apply not_true_is_false in Hno. rewrite Hno.
      rewrite (IH _ Hnd). f_equal. apply filter_already_stored_snoc, Hnotin.
  - destruct (decide (already_stored stored item = true)) as [Hyes | Hno];
      rewrite Has in *; [discriminate | apply IH, Hnd].
Qed.

(** One insert leaves the table as it is or appends one row with a link the
    table did not hold. *)
Lemma execute_insert_cases now d item :
  ((execute_insert now d item).1 = d /\ (execute_insert now d item).2 <> Inserted)
  \/ exists r, row_of now (S (seq d)) item = Some r
               /\ (link r ∉ links d)
               /\ execute_insert now d item
                  = ({| rows := rows d ++ [r]; seq := S (seq d) |}, Inserted).
Proof.
  destruct (row_of now (S (seq d)) item) as [r|] eqn:Hrow.
  - rewrite (execute_insert_row_of now d item r Hrow).
    destruct (bool_decide (link r ∈ links d)) eqn:Hin.
    + left. split; [reflexivity | discriminate].
    + right. exists r. apply bool_decide_eq_false in Hin. auto.
  - left. revert Hrow. unfold row_of, execute_insert.
    case_parameters item;
      intros; try discriminate; split; (reflexivity || discriminate).
Qed.

(** The table the loop leaves does not depend on the counter. *)
Lemma save_loop_step now d item rest k :
  exists k',
    (save_loop now d (item :: rest) k).1.1
    = (save_loop now (execute_insert now d item).1 rest k').1.1.
Proof.
  cbn [save_loop].
  destruct (execute_insert now d item) as [d1 []]; cbn [fst].
  - exists (S k). reflexivity.
  - exists k. destruct (save_loop now d1 rest k) as [[? ?] ?]. reflexivity.
  - exists k. destruct (save_loop now d1 rest k) as [[? ?] ?]. reflexivity.
Qed.

(** What any batch does to the table: it appends rows written from its
    candidates, keeps the links pairwise distinct, and leaves the link of
    every storable candidate in the table. *)
Lemma save_loop_table now batch :
  forall d k,
    exists new,
      rows (save_loop now d batch k).1.1 = rows d ++ new
      /\ Forall (written_from now batch) new
      /\ (NoDup (links d) -> NoDup (links (save_loop now d batch k).1.1))
      /\ (forall item l, item ∈ batch -> storable item = true ->
                         bound_link item = Some l ->
                         l ∈ links (save_loop now d batch k).1.1).
Proof.
  induction batch as [|item rest IH]; intros d k.
  - exists []. cbn. rewrite app_nil_r. repeat split; auto.
    intros item l Hin. inversion Hin.
  - destruct (save_loop_step now d item rest k) as [k' ->].
    destruct (IH (execute_insert now d item).1 k')
      as (new & Hrows & Hnew & Hnd & Hin).
    destruct (execute_insert_cases now d item)
      as [[Hsame Hnot] | (r & Hrow & Hfresh & Hexec)].
    + rewrite Hsame in *. exists new. repeat split.
      * exact Hrows.
      * apply written_from_cons, Hnew.
      * exact Hnd.
      * intros item' l Hi Hst Hl. apply elem_of_cons in Hi as [-> | Hi].
        -- destruct (storable_row_of now (S (seq d)) item Hst)
             as (r & Hrow & Hlink & _ & _).
           rewrite (execute_insert_row_of now d item r Hrow) in Hnot.
           destruct (bool_decide (link r ∈ links d)) eqn:Hdup;
             [| exfalso; apply Hnot; reflexivity].
           apply bool_decide_eq_true in Hdup.
           assert (l = link r) as -> by congruence.
           unfold links in *. rewrite Hrows, map_app. apply elem_of_app. auto.
        -- eapply Hin; eassumption.
    + rewrite Hexec in *. cbn [fst rows] in *.
      exists (r :: new). repeat split.
      * rewrite Hrows, <- app_assoc. reflexivity.
      * constructor.
        -- exists item, (S (seq d)). split; [left | exact Hrow].
        -- apply written_from_cons, Hnew.
      * intros Hd. apply Hnd. rewrite links_snoc.
        apply NoDup_app. repeat split; [exact Hd | | apply NoDup_singleton].
        intros x Hx Hx'. apply list_elem_of_singleton in Hx'. subst. auto.
      * intros item' l Hi Hst Hl. apply elem_of_cons in Hi as [-> | Hi].
        -- destruct (storable_row_of now (S (seq d)) item Hst)
             as (r' & Hrow' & Hlink & _ & _).
           assert (r' = r) as -> by congruence.
           assert (l = link r) as -> by congruence.
           unfold links. rewrite Hrows, <- app_assoc, map_app.
           apply elem_of_app. right. left.
        -- eapply Hin; eassumption.
Qed.

Lemma update_news_summary_links d news_id new_summary :
  links (update_news_summary d news_id new_summary).1 = links d.
Proof.
  unfold links, update_news_summary. cbn. rewrite map_map.
  apply map_ext. intros r. destruct (decide (id r = news_id)); reflexivity.
Qed.

Lemma apply_operation_links d op :
  NoDup (links d) -> NoDup (links (apply_operation d op)).
Proof.
  intros Hd. destruct op; cbn [apply_operation]; try exact Hd.
  - unfold save_news.
    destruct (save_loop_table now news_items d 0) as (_ & _ & _ & Hnd & _).
    destruct (save_loop now d news_items 0) as [[d' n] out]. exact (Hnd Hd).
  - rewrite update_news_summary_links. exact Hd.
Qed.

Lemma run_operations_links ops : NoDup (links (run_operations ops)).
Proof.
  unfold run_operations.
  assert (H0 : NoDup (links (init_db None).1)) by constructor.
  revert H0. generalize (init_db None).1.
  induction ops as [|op ops IH]; intros d Hd; [exact Hd |].
  cbn [fold_left]. apply IH, apply_operation_links, Hd.
Qed.

(** In a table of pairwise distinct links a stored link has one row. *)
Lemma rows_with_link_unique l d :
  NoDup (links d) -> l ∈ links d -> rows_with_link l d = 1.
Proof.
  unfold rows_with_link, links. induction (rows d) as [|r rs IH]; cbn [map].
  - intros _ H. inversion H.
  - intros Hnd Hin. apply NoDup_cons in Hnd as [Hfresh Hnd].
    rewrite filter_cons. destruct (decide (link r = l)) as [<- | Hne].
    + cbn [length]. f_equal.
      destruct (filter (fun r0 => link r0 = link r) rs) as [|r' ?] eqn:Hf;
        [reflexivity |].
      exfalso. apply Hfresh.
      assert (Hr' : r' ∈ filter (fun r0 => link r0 = link r) rs)
        by (rewrite Hf; left).
      apply list_elem_of_filter in Hr' as [<- Hr'].
      apply list_elem_of_fmap. exists r'. auto.
    + apply IH; [exact Hnd |].
      apply elem_of_cons in Hin as [-> | Hin]; [congruence | exact Hin].
Qed.

(** C1, as stated, fails: [save_news] has no [return] statement. Appending one
    candidate to the empty table inserts the row and hands [None] to the
    caller, not the count 1. *)
Lemma save_news_returns_none_counterexample :
  let item := candidate "AAPL" "Earnings" "http://example.com/1" in
  let r := save_news "2025-08-02 10:00:00" empty_db [item] in
  length (rows r.1.1) = 1
  /\ r.2 = VNone
  /\ r.2 <> VInt (Z.of_nat (length [item] - duplicates (links empty_db) [item])).
Proof. cbv zeta. split; [reflexivity | split; [reflexivity | discriminate]]. Qed.

(** C1, amended. For a batch of [N] candidates that can only fail on the
    uniqueness of their link, of which [D] meet their link in the table (put
    there before the call or by an earlier candidate of the batch),
    [save_news] appends exactly [N - D] rows after the rows it found, prints
    one skip message per duplicate and the count [N - D] last, and returns
    [None]. When the links of the batch are pairwise distinct, [D] is the
    number of candidates whose link was stored before the call. *)
Theorem save_news_inserts_all_but_duplicates now d batch :
  Forall (fun item => storable item = true) batch ->
  let duplicate_count := duplicates (links d) batch in
  exists d' out new,
    save_news now d batch
    = (d', out ++ [PrintSaved (length batch - duplicate_count)], VNone)
    /\ rows d' = rows d ++ new
    /\ length new = length batch - duplicate_count
    /\ duplicate_count <= length batch
    /\ Forall (fun e => exists t l, e = PrintSkippingDuplicate t l) out
    /\ (NoDup (omap bound_link batch) ->
        duplicate_count
        = length (filter (fun item => already_stored (links d) item = true) batch)).
Proof.
  intros Hall duplicate_count.
  destruct (save_loop_storable now batch d 0 Hall)
    as (d' & out & new & Hloop & Hrows & Hlen & Hle & Hout & _).
  exists d', out, new. unfold save_news. rewrite Hloop. cbn [Nat.add].
  repeat split; try assumption.
  apply duplicates_distinct_links.
Qed.

Lemma save_news_inserts_all_but_duplicates_witness :
  let known := candidate "AAPL" "Old" "http://example.com/1" in
  let fresh := candidate "AAPL" "New" "http://example.com/2" in
  let d := (save_news "t0" empty_db [known]).1.1 in
  exists d' out new,
    save_news "t1" d [known; fresh; fresh]
    = (d', out ++ [PrintSaved 1], VNone)
    /\ rows d' = rows d ++ new
    /\ length new = 1.
Proof.
  cbv zeta.
  destruct (save_news_inserts_all_but_duplicates "t1"
              (save_news "t0" empty_db
                 [candidate "AAPL" "Old" "http://example.com/1"]).1.1
              [candidate "AAPL" "Old" "http://example.com/1";
               candidate "AAPL" "New" "http://example.com/2";
               candidate "AAPL" "New" "http://example.com/2"])
    as (d' & out & new & Hsave & Hrows & Hlen & _).
  - repeat constructor.
  - exists d', out, new. split; [exact Hsave | split; [exact Hrows | exact Hlen]].
Defined.

Lemma save_news_table now d batch :
  (save_news now d batch).1.1 = (save_loop now d batch 0).1.1.
Proof.
  unfold save_news. destruct (save_loop now d batch 0) as [[? ?] ?]. reflexivity.
Qed.

(** C5. After any history of store operations on a fresh database the stored
    links are pairwise distinct, and a further [save_news] keeps them so: a
    link that was stored before it, and the link of every storable candidate
    of its batch (new, stored already, or repeated in the batch), has exactly
    one row afterwards. *)
Theorem stored_links_stay_unique ops now batch :
  let d := run_operations ops in
  let d' := (save_news now d batch).1.1 in
  NoDup (links d)
  /\ NoDup (links d')
  /\ (forall l, l ∈ links d -> rows_with_link l d' = 1)
  /\ (forall item l,
        item ∈ batch -> storable item = true -> bound_link item = Some l ->
        rows_with_link l d' = 1).
Proof.
  intros d d'. subst d'. rewrite save_news_table.
  pose proof (run_operations_links ops) as Hd. fold d in Hd.
  destruct (save_loop_table now batch d 0) as (new & Hrows & _ & Hnd & Hin).
  specialize (Hnd Hd).
  split; [exact Hd | split; [exact Hnd | split]].
  - intros l Hl. apply rows_with_link_unique; [exact Hnd |].
    unfold links in *. rewrite Hrows, map_app. apply elem_of_app. auto.
  - intros item l Hi Hst Hl. apply rows_with_link_unique; [exact Hnd |].
    eapply Hin; eassumption.
Qed.

Lemma select_has_timestamp d start_date_str end_date_str sym r :
  r ∈ select_by_date_range d start_date_str end_date_str sym ->
  published_at r <> None.
Proof.
  unfold select_by_date_range. intros Hr.
  apply list_elem_of_filter in Hr as [Hsel _].
  apply andb_true_iff in Hsel as [Hb _].
  destruct (published_at r); [discriminate | discriminate Hb].
Qed.

Lemma row_of_link now n item r :
  row_of now n item = Some r -> bound_link item = Some (link r).
Proof.
  unfold row_of, bound_link. case_parameters item; try discriminate.
  intros [= <-]. reflexivity.
Qed.

Lemma get_insert_other (item : gmap string value) key key' v :
  key <> key' -> get (<[key := v]> item) key' = get item key'.
Proof.
  intros Hne. unfold get. rewrite lookup_insert_ne by exact Hne. reflexivity.
Qed.

(** What a candidate carries under ['published_at'] is not read. *)
Lemma execute_insert_ignores_published_at now d item v :
  execute_insert now d (<["published_at" := v]> item) = execute_insert now d item.
Proof.
  unfold execute_insert. rewrite !get_insert_other by discriminate. reflexivity.
Qed.

Lemma save_loop_ignores_published_at now (f : gmap string value -> value) batch :
  forall d k,
    save_loop now d (map (fun item => <["published_at" := f item]> item) batch) k
    = save_loop now d batch k.
Proof.
  induction batch as [|item rest IH]; intros d k; [reflexivity |].
  cbn [map save_loop].
  rewrite execute_insert_ignores_published_at, !get_insert_other by discriminate.
  destruct (execute_insert now d item) as [d' []]; rewrite IH; reflexivity.
Qed.

(** C10. The column [published_at] is filled from the key ['published'] and
    from nothing else. Whatever the candidates of a batch carry under
    ['published_at'], [save_news] does the same. Every row the batch appends
    comes from a candidate with its link and holds, as [published_at], what
    that candidate's ['published'] is bound to; a row whose [published_at] is
    [NULL] is selected by no date-range query. A storable candidate with a new
    link gets its row; when no other candidate of the batch has its link, the
    row holds the text under its ['published'], and [NULL] when it has none
    (a timestamp only under ['published_at']), so that no date-range query
    selects it. *)
Theorem published_at_is_read_from_published now d batch :
  (forall f : gmap string value -> value,
     save_news now d (map (fun item => <["published_at" := f item]> item) batch)
     = save_news now d batch)
  /\ exists new,
       rows (save_news now d batch).1.1 = rows d ++ new
       /\ Forall (fun r =>
                    exists item,
                      item ∈ batch
                      /\ bound_link item = Some (link r)
                      /\ adapt (get item "published") = Some (published_at r)) new
       /\ (forall r start_date_str end_date_str sym,
             r ∈ new -> published_at r = None ->
             r ∉ select_by_date_range (save_news now d batch).1.1
                   start_date_str end_date_str sym)
       /\ (forall item l,
             item ∈ batch -> storable item = true -> bound_link item = Some l ->
             l ∉ links d ->
             exists r,
               r ∈ new /\ link r = l
               /\ ((forall item', item' ∈ batch -> bound_link item' = Some l ->
                                  item' = item) ->
                   adapt (get item "published") = Some (published_at r)
                   /\ (forall ts, get item "published" = VStr ts ->
                                  published_at r = Some ts)
                   /\ (get item "published" = VNone ->
                       published_at r = None
                       /\ forall start_date_str end_date_str sym,
                            r ∉ select_by_date_range (save_news now d batch).1.1
                                  start_date_str end_date_str sym))).
Proof.
  split.
  { intros f. unfold save_news. rewrite save_loop_ignores_published_at.
    reflexivity. }
  rewrite save_news_table.
  destruct (save_loop_table now batch d 0) as (new & Hrows & Hnew & _ & Hin).
  assert (Hfrom : forall r, r ∈ new ->
            exists item, item ∈ batch /\ bound_link item = Some (link r)
                         /\ adapt (get item "published") = Some (published_at r)).
  { intros r Hr. rewrite Forall_forall in Hnew.
    destruct (Hnew r Hr) as (item & n & Hi & Hrow). exists item.
    split; [exact Hi |].
    split; [exact (row_of_link _ _ _ _ Hrow) | exact (row_of_published _ _ _ _ Hrow)]. }
  assert (Hnull : forall r S E sym,
            published_at r = None ->
            r ∉ select_by_date_range (save_loop now d batch 0).1.1 S E sym).
  { intros r S E sym Hn Hsel. apply select_has_timestamp in Hsel. contradiction. }
  exists new. split; [exact Hrows |].
  split; [apply Forall_forall; exact Hfrom |].
  split; [intros r S E sym _ Hn; exact (Hnull r S E sym Hn) |].
  intros item l Hi Hst Hl Hfresh.
  specialize (Hin item l Hi Hst Hl).
  unfold links in Hin, Hfresh. rewrite Hrows, map_app in Hin.
  apply elem_of_app in Hin as [Hin | Hin]; [contradiction |].
  apply list_elem_of_fmap in Hin as (r & -> & Hr).
  exists r. split; [exact Hr |]. split; [reflexivity |].
  intros Honly.
  destruct (Hfrom r Hr) as (item' & Hi' & Hl' & Hp').
  assert (item' = item) as -> by (apply Honly; assumption).
  split; [exact Hp' |]. split.
  - intros ts Hts. rewrite Hts in Hp'. cbn in Hp'. congruence.
  - intros Hnone. rewrite Hnone in Hp'. cbn in Hp'.
    assert (Hn : published_at r = None) by congruence.
    split; [exact Hn |]. intros S E sym. exact (Hnull r S E sym Hn).
Qed.

Lemma published_at_is_read_from_published_witness :
  let late := candidate_published_at "AAPL" "Earnings" "http://example.com/1"
                "2025-08-02 10:00:00 UTC" in
  let dated := <["published" := VStr "2025-08-02 11:00:00 UTC"]>
                 (candidate "AAPL" "Guidance" "http://example.com/2") in
  let d' := (save_news "now" empty_db [late; dated]).1.1 in
  exists r1 r2,
    r1 ∈ rows d' /\ link r1 = "http://example.com/1"
    /\ published_at r1 = None
    /\ (forall start_date_str end_date_str sym,
          r1 ∉ select_by_date_range d' start_date_str end_date_str sym)
    /\ r2 ∈ rows d' /\ link r2 = "http://example.com/2"
    /\ published_at r2 = Some "2025-08-02 11:00:00 UTC".
Proof.
  cbv zeta.
  set (late := candidate_published_at "AAPL" "Earnings" "http://example.com/1"
                 "2025-08-02 10:00:00 UTC").
  set (dated := <["published" := VStr "2025-08-02 11:00:00 UTC"]>
                  (candidate "AAPL" "Guidance" "http://example.com/2")).
  destruct (published_at_is_read_from_published "now" empty_db [late; dated])
    as (_ & new & Hrows & _ & _ & Hins).
  assert (Hfresh : forall l : string, l ∉ links empty_db).
  { intros l H. inversion H. }
  destruct (Hins late "http://example.com/1") as (r1 & Hr1 & Hl1 & H1).
  { left. }
  { reflexivity. }
  { reflexivity. }
  { apply Hfresh. }
  destruct (Hins dated "http://example.com/2") as (r2 & Hr2 & Hl2 & H2).
  { right. left. }
  { reflexivity. }
  { reflexivity. }
  { apply Hfresh. }
  destruct H1 as (_ & _ & H1).
  { intros item' Hi Hl.
    apply elem_of_cons in Hi as [-> | Hi]; [reflexivity |].
    apply list_elem_of_singleton in Hi as ->. discriminate Hl. }
  destruct H2 as (_ & H2 & _).
  { intros item' Hi Hl.
    apply elem_of_cons in Hi as [-> | Hi]; [discriminate Hl |].
    apply list_elem_of_singleton in Hi as ->. reflexivity. }
  destruct (H1 eq_refl) as [Hn1 Hsel1].
  exists r1, r2. rewrite Hrows. cbn [rows empty_db app].
  split; [exact Hr1 |]. split; [exact Hl1 |]. split; [exact Hn1 |].
  split; [exact Hsel1 |]. split; [exact Hr2 |]. split; [exact Hl2 |].
  exact (H2 _ eq_refl).
Defined.

End StoreFacts.

(* ===================================================================== *)
(** * Properties of the date-range query                                  *)
(* ===================================================================== *)

Section DateRangeFacts.
Import Py Database Store Timestamps.

Lemma text_le_lex (a b : string) : text_le a b = lex_le (codes a) (codes b).
Proof.
  unfold text_le, String.leb. revert b.
  induction a as [|x a IH]; intros [|y b]; cbn; try reflexivity.
  unfold Ascii.compare.
  destruct (N.compare_spec (N_of_ascii x) (N_of_ascii y)) as [Heq | Hlt | Hgt].
  - rewrite Heq, N.ltb_irrefl, N.eqb_refl. cbn. apply IH.
  - apply N.ltb_lt in Hlt as ->. reflexivity.
  - assert ((N_of_ascii x <? N_of_ascii y)%N = false) as -> by (apply N.ltb_ge; lia).
    assert ((N_of_ascii x =? N_of_ascii y)%N = false) as -> by (apply N.eqb_neq; lia).
    reflexivity.
Qed.

(** Texts of equal length compare first; what follows them decides a tie. *)
Lemma compare_append (a b x y : string) :
  String.length a = String.length b ->
  String.compare (a +:+ x) (b +:+ y)
  = match String.compare a b with
    | Eq => String.compare x y
    | c => c
    end.
Proof.
  revert b. induction a as [|c a IH]; intros [|c' b] Hlen; try discriminate.
  - reflexivity.
  - injection Hlen as Hlen.
    change (String c a +:+ x) with (String c (a +:+ x)).
    change (String c' b +:+ y) with (String c' (b +:+ y)).
    cbn [String.compare]. destruct (Ascii.compare c c'); [apply IH, Hlen | |];
      reflexivity.
Qed.

Lemma two_digits_ordered_true : two_digits_ordered = true.
Proof. vm_compute. reflexivity. Qed.

Lemma compare_two_digits n m :
  n < 100 -> m < 100 ->
  String.compare (two_digits n) (two_digits m) = Nat.compare n m.
Proof.
  intros Hn Hm. pose proof two_digits_ordered_true as H.
  unfold two_digits_ordered in H. rewrite forallb_forall in H.
  specialize (H n (proj2 (in_seq 100 0 n) ltac:(lia))).
  rewrite forallb_forall in H.
  specialize (H m (proj2 (in_seq 100 0 m) ltac:(lia))).
  destruct (String.compare (two_digits n) (two_digits m)),
           (Nat.compare n m); (reflexivity || discriminate H).
Qed.

Lemma compare_four_digits n m :
  n < 100 * 100 -> m < 100 * 100 ->
  String.compare (four_digits n) (four_digits m) = Nat.compare n m.
Proof.
  intros Hn Hm. unfold four_digits.
  rewrite <- (append_empty (two_digits (n mod 100))),
          <- (append_empty (two_digits (m mod 100))).
  rewrite compare_append by reflexivity.
  rewrite compare_append by reflexivity.
  pose proof (Nat.div_mod_eq n 100) as En.
  pose proof (Nat.div_mod_eq m 100) as Em.
  pose proof (Nat.mod_upper_bound n 100 ltac:(lia)) as Bn.
  pose proof (Nat.mod_upper_bound m 100 ltac:(lia)) as Bm.
  assert (n / 100 < 100) by (apply Nat.Div0.div_lt_upper_bound; lia).
  assert (m / 100 < 100) by (apply Nat.Div0.div_lt_upper_bound; lia).
  rewrite !compare_two_digits by assumption.
  destruct (Nat.compare_spec (n / 100) (m / 100)) as [Hq | Hq | Hq].
  - destruct (Nat.compare_spec (n mod 100) (m mod 100)) as [Hr | Hr | Hr]; cbn;
      symmetry; [apply Nat.compare_eq_iff | apply Nat.compare_lt_iff
                | apply Nat.compare_gt_iff]; lia.
  - symmetry. apply Nat.compare_lt_iff. lia.
  - symmetry. apply Nat.compare_gt_iff. lia.
Qed.

Lemma append_associative (a b c : string) :
  ((a +:+ b) +:+ c)%string = (a +:+ (b +:+ c))%string.
Proof.
  induction a as [|x a IH]; [reflexivity |].
  change (String x ((a +:+ b) +:+ c) = String x (a +:+ (b +:+ c))).
  f_equal. exact IH.
Qed.

(** Printed timestamps compare as texts the way their fields compare. *)
Lemma compare_format_timestamp a b :
  valid_timestamp a -> valid_timestamp b ->
  String.compare (format_timestamp a) (format_timestamp b)
  = compare_fields (fields a) (fields b).
Proof.
  intros ((Hy & Hm & Hd) & Hh & Hmi & Hs) ((Hy' & Hm' & Hd') & Hh' & Hmi' & Hs').
  unfold format_timestamp, format_day.
  rewrite !append_associative.
  repeat (rewrite compare_append by reflexivity).
  rewrite compare_four_digits by lia.
  rewrite !compare_two_digits by lia.
  cbn [fields compare_fields]. reflexivity.
Qed.

Lemma valid_start_of_day d : valid_day d -> valid_timestamp (start_of_day d).
Proof. intros H. repeat split; try apply H; cbn; lia. Qed.

Lemma valid_end_of_day d : valid_day d -> valid_timestamp (end_of_day d).
Proof. intros H. repeat split; try apply H; cbn; lia. Qed.

(** The [BETWEEN] of the query on a printed timestamp is the window test. *)
Lemma between_format_timestamp first last t :
  valid_day first -> valid_day last -> valid_timestamp t ->
  between (Some (format_timestamp t))
          (format_day first +:+ " 00:00:00 UTC")
          (format_day last +:+ " 23:59:59 UTC")
  = in_window first last t.
Proof.
  intros Hf Hl Ht.
  change (format_day first +:+ " 00:00:00 UTC")
    with (format_timestamp (start_of_day first)).
  change (format_day last +:+ " 23:59:59 UTC")
    with (format_timestamp (end_of_day last)).
  unfold between, text_le, String.leb, in_window, not_after.
  rewrite !compare_format_timestamp
    by auto using valid_start_of_day, valid_end_of_day.
  reflexivity.
Qed.

Lemma filter_agree {A} (P Q : A -> bool) (l : list A) :
  (forall x, x ∈ l -> P x = Q x) ->
  filter (fun x => P x = true) l = filter (fun x => Q x = true) l.
Proof.
  induction l as [|x l IH]; intros H; [reflexivity |].
  rewrite !filter_cons, IH by (intros y Hy; apply H; right; exact Hy).
  assert (Hx : P x = Q x) by (apply H; left).
  destruct (decide (P x = true)), (decide (Q x = true)); congruence.
Qed.

(** C6, as stated, fails twice over. The empty text is a symbol argument, and
    the query then filters nothing: it returns the item of ["TSLA"]. And an
    item stamped at the midnight that opens the queried day, stored without
    the zone suffix, is left out. *)
Lemma date_range_counterexample :
  stamped_row 4 "TSLA" "other symbol" (Some "2025-08-01 12:00:00 UTC")
    ∈ select_by_date_range boundary_db "2025-08-01" "2025-08-01" (Some "")
  /\ get_news_by_date_range boundary_db "2025-08-01" "2025-08-01" (Some "")
     = [ {| ns_title := "first second"; ns_summary := Some "summary" |};
         {| ns_title := "last second"; ns_summary := Some "summary" |};
         {| ns_title := "other symbol"; ns_summary := Some "summary" |} ]
  /\ stamped_row 2 "AAPL" "midnight, no zone" (Some "2025-08-01 00:00:00")
       ∉ select_by_date_range other_formats_db "2025-08-01" "2025-08-01" None.
Proof.
  split; [| split; [reflexivity |]].
  - apply list_elem_of_filter. split; [reflexivity |].
    do 3 right. left.
  - intros H. apply list_elem_of_filter in H as [H _]. discriminate H.
Qed.

(** C6, amended. When every stored [published_at] is [NULL] or a timestamp
    in the stored form, the query for the days [first] to [last] returns, in
    table order, exactly the items stamped within
    [[first 00:00:00, last 23:59:59]], both ends included, and, when a
    non-empty symbol is given, only those of exactly that symbol. *)
Theorem date_range_selects_window d first last sym stamp :
  valid_day first -> valid_day last ->
  (forall r, r ∈ rows d ->
             published_at r = format_timestamp <$> stamp r
             /\ forall t, stamp r = Some t -> valid_timestamp t) ->
  sym <> Some "" ->
  get_news_by_date_range d (format_day first) (format_day last) sym
  = map (fun r => {| ns_title := title r; ns_summary := summary r |})
      (filter (fun r => selected_by_calendar first last sym stamp r = true)
              (rows d)).
Proof.
  intros Hf Hl Hrows Hsym.
  unfold get_news_by_date_range, select_by_date_range. f_equal.
  apply filter_agree. intros r Hr.
  destruct (Hrows r Hr) as [Hp Hvalid].
  unfold selected_by_calendar. rewrite Hp.
  destruct (stamp r) as [t|]; cbn [fmap option_fmap option_map]; [| reflexivity].
  rewrite between_format_timestamp by auto. f_equal.
  destruct sym as [[|c s]|]; [congruence | reflexivity | reflexivity].
Qed.

Lemma date_range_selects_window_witness :
  get_news_by_date_range boundary_db "2025-08-01" "2025-08-01" (Some "AAPL")
  = [ {| ns_title := "first second"; ns_summary := Some "summary" |};
      {| ns_title := "last second"; ns_summary := Some "summary" |} ].
Proof.
  refine (date_range_selects_window boundary_db
            {| year := 2025; month := 8; day_of_month := 1 |}
            {| year := 2025; month := 8; day_of_month := 1 |}
            (Some "AAPL") boundary_stamp _ _ _ _).
  - repeat split; cbn; lia.
  - repeat split; cbn; lia.
  - intros r Hr.
    repeat (apply elem_of_cons in Hr as [-> | Hr]);
      try (split; [reflexivity | intros t [= <-]; repeat split; cbn; lia]).
    inversion Hr.
  - discriminate.
Defined.

(** C9. The query compares the stored text with
    ["<start> 00:00:00 UTC"] and ["<end> 23:59:59 UTC"] in the lexicographic
    order of their code points, whatever the text is: a row is returned
    exactly when its [published_at] is a text between the two bounds in that
    order (and its symbol passes the filter). A row whose [published_at] is
    [NULL] is never returned. Of the texts for 2025-08-01 stored in other
    forms, queried for that day, the ISO form at noon and the midnight
    without zone are left out and the last second without zone is returned. *)
Theorem date_range_compares_texts :
  (forall d start_date_str end_date_str sym r,
     r ∈ select_by_date_range d start_date_str end_date_str sym
     <-> r ∈ rows d
         /\ (exists p, published_at r = Some p
                       /\ lex_le (codes (start_date_str +:+ " 00:00:00 UTC")) (codes p) = true
                       /\ lex_le (codes p) (codes (end_date_str +:+ " 23:59:59 UTC")) = true)
         /\ (forall s, sym = Some s -> str_truthy s = true -> symbol r = s))
  /\ (forall d start_date_str end_date_str sym,
        get_news_by_date_range d start_date_str end_date_str sym
        = map (fun r => {| ns_title := title r; ns_summary := summary r |})
            (select_by_date_range d start_date_str end_date_str sym))
  /\ (forall d start_date_str end_date_str sym r,
        published_at r = None ->
        r ∉ select_by_date_range d start_date_str end_date_str sym)
  /\ get_news_by_date_range other_formats_db "2025-08-01" "2025-08-01" None
     = [ {| ns_title := "last second, no zone"; ns_summary := Some "summary" |} ].
Proof.
  split; [| split; [reflexivity | split; [| reflexivity]]].
  - intros d S E sym r. unfold select_by_date_range.
    rewrite list_elem_of_filter, andb_true_iff. unfold between.
    split.
    + intros [[Hb Hs] Hr]. split; [exact Hr | split].
      * destruct (published_at r) as [p|]; [| discriminate].
        apply andb_true_iff in Hb as [Hlo Hhi]. rewrite !text_le_lex in *.
        exists p. auto.
      * intros s -> Hts. rewrite Hts in Hs. apply bool_decide_eq_true in Hs.
        exact Hs.
    + intros (Hr & (p & Hp & Hlo & Hhi) & Hs). split; [split | exact Hr].
      * rewrite Hp, !text_le_lex, Hlo, Hhi. reflexivity.
      * destruct sym as [s|]; [| reflexivity].
        destruct (str_truthy s) eqn:Hts; [| reflexivity].
        apply bool_decide_eq_true. apply Hs; [reflexivity | exact Hts].
  - intros d S E sym r Hnull Hsel. apply select_has_timestamp in Hsel.
    contradiction.
Qed.

End DateRangeFacts.

(* ===================================================================== *)
(** * Properties of the pipeline and of the report generator              *)
(* ===================================================================== *)

Section PipelineFacts.
Import Py Database LlmService NewsProcessor Pipeline.

(** With a content to quote, [summarize_text] returns a non-empty text and
    sends at most the one request. *)
Lemma summarize_text_returns self sent0 t :
  never_blank self ->
  exists s,
    result (summarize_text self sent0 (Some t)) = inr s
    /\ str_truthy s = true
    /\ requests (summarize_text self sent0 (Some t))
       = if no_api_key self then sent0
         else sent0 ++ [summarize_request (Some t)].
Proof.
  intros Hmodel. unfold summarize_text.
  destruct (no_api_key self) eqn:Hkey.
  - eexists. cbn. repeat split.
  - destruct (chat self sent0 (summarize_request (Some t))) as [|[c|]] eqn:Hreply.
    + eexists. cbn. repeat split.
    + exists (strip c). cbn. repeat split. eapply Hmodel; [exact Hkey | exact Hreply].
    + eexists. cbn. repeat split.
Qed.

Lemma set_summary_resolved s r :
  str_truthy s = true -> summary_missing (set_summary s r) = false.
Proof. intros H. unfold summary_missing. cbn. rewrite H. reflexivity. Qed.

(** The loop over a backlog whose items all have a content: it ends without
    an exception, sends one request per item when a key is configured, and
    leaves a non-empty summary in every row whose id is in the backlog. *)
Lemma summarize_loop_resolves self backlog :
  never_blank self ->
  forall d sent0,
    Forall (fun u => u_content u <> None) backlog ->
    raised (summarize_loop self d sent0 backlog) = None
    /\ sent (summarize_loop self d sent0 backlog)
       = (if no_api_key self then sent0 else sent0 ++ backlog_requests backlog)
    /\ Forall2 (fun r r' =>
                  (id r ∈ map u_id backlog ->
                   exists s, r' = set_summary s r /\ str_truthy s = true)
                  /\ (id r ∉ map u_id backlog -> r' = r))
               (rows d) (rows (store (summarize_loop self d sent0 backlog))).
Proof.
  intros Hmodel. induction backlog as [|u rest IH]; intros d sent0 Hall.
  - cbn. split; [reflexivity | split].
    + destruct (no_api_key self); [reflexivity | rewrite app_nil_r; reflexivity].
    + apply Forall2_same_length_lookup_2; [reflexivity |].
      intros i r r' Hr Hr'. assert (r' = r) as -> by congruence.
      split; [intros H; inversion H | reflexivity].
  - inversion Hall as [|? ? Hu Hrest]; subst.
    destruct (u_content u) as [t|] eqn:Hcontent; [| congruence].
    destruct (summarize_text_returns self sent0 t Hmodel) as (s & Hres & Hs & Hreq).
    cbn [summarize_loop]. rewrite Hcontent, Hres.
    cbn [update_news_summary store sent raised].
    specialize (IH {| rows := map (fun r => if decide (id r = u_id u)
                                            then set_summary s r else r) (rows d);
                      seq := seq d |}
                   (requests (summarize_text self sent0 (Some t))) Hrest).
    destruct IH as (Hraised & Hsent & Hrows).
    split; [exact Hraised | split].
    + rewrite Hsent, Hreq. destruct (no_api_key self); [reflexivity |].
      unfold backlog_requests. cbn [map]. rewrite Hcontent, <- app_assoc.
      reflexivity.
    + cbn [rows] in Hrows. apply Forall2_fmap_l in Hrows.
      eapply Forall2_impl; [exact Hrows |].
      intros r r' [Hin Hout]. cbn [map].
      destruct (decide (id r = u_id u)) as [Heq | Hne]; cbn in Hin, Hout.
      * split; [| intros Hn; exfalso; apply Hn; rewrite Heq; left].
        intros _. destruct (decide (id r ∈ map u_id rest)) as [Hy | Hn].
        -- destruct (Hin Hy) as (s' & -> & Hs'). exists s'.
           split; [reflexivity | exact Hs'].
        -- rewrite (Hout Hn). exists s. split; [reflexivity | exact Hs].
      * split.
        -- intros H. apply elem_of_cons in H as [H | H]; [congruence |].
           exact (Hin H).
        -- intros H. apply Hout. intros H'. apply H. right. exact H'.
Qed.

(** The enrich phase is the loop over the whole backlog. *)
Lemma enrich_as_loop self d sent0 :
  store (enrich self d sent0)
  = store (summarize_loop self d sent0 (get_unsmarized_news d))
  /\ sent (enrich self d sent0)
     = sent (summarize_loop self d sent0 (get_unsmarized_news d))
  /\ raised (enrich self d sent0)
     = raised (summarize_loop self d sent0 (get_unsmarized_news d)).
Proof.
  unfold enrich. destruct (get_unsmarized_news d); repeat split.
Qed.

Lemma filter_none {A} (P : A -> bool) (l : list A) :
  Forall (fun x => P x = false) l -> filter (fun x => P x = true) l = [].
Proof.
  induction 1 as [|x l Hx _ IH]; [reflexivity |].
  rewrite filter_cons, IH. destruct (decide (P x = true)); [congruence | reflexivity].
Qed.

Lemma backlog_ids d r :
  r ∈ rows d -> summary_missing r = true ->
  id r ∈ map u_id (get_unsmarized_news d).
Proof.
  intros Hr Hm. unfold get_unsmarized_news. rewrite map_map. cbn.
  apply list_elem_of_fmap. exists r. split; [reflexivity |].
  apply list_elem_of_filter. auto.
Qed.

Lemma backlog_contents d :
  backlog_has_content d ->
  Forall (fun u => u_content u <> None) (get_unsmarized_news d).
Proof.
  intros H. unfold get_unsmarized_news. apply Forall_forall. intros u Hu.
  apply list_elem_of_fmap in Hu as (r & -> & Hr).
  apply list_elem_of_filter in Hr as [Hm Hr]. cbn. apply H; assumption.
Qed.

(** C2, as stated, fails: a model that answers with white space makes
    [summarize_text] return the empty text, which is stored as the summary;
    the run completes and the whole backlog is still there. *)
Lemma blank_reply_counterexample :
  let r := process_and_summarize_news blank_service "now" pending_db [] no_news in
  raised r = None
  /\ map summary (rows (store r)) = [Some ""; Some ""]
  /\ map u_id (get_unsmarized_news (store r)) = [1; 2].
Proof. cbv zeta. repeat split. Qed.

(** C2, amended. When every backlog item has a content and the model, when
    it is asked and answers, answers with more than white space, the enrich
    phase of
    [process_and_summarize_news] completes without an exception, whatever the
    model does on each item (answer, fail, return no content); afterwards
    [get_unsmarized_news] returns the empty list, every row of the store after
    the ingest phase is still there with a non-empty summary, and with a key
    configured one request was sent for every backlog item, in order. *)
Theorem enrich_clears_backlog self now d sent0 data :
  never_blank self ->
  backlog_has_content (ingest now d data).1 ->
  let d1 := (ingest now d data).1 in
  let r := process_and_summarize_news self now d sent0 data in
  raised r = None
  /\ get_unsmarized_news (store r) = []
  /\ Forall2 resolved (rows d1) (rows (store r))
  /\ sent r = (if no_api_key self then sent0
               else sent0 ++ backlog_requests (get_unsmarized_news d1)).
Proof.
  intros Hmodel Hcontent d1 r. subst d1 r.
  unfold process_and_summarize_news.
  destruct (ingest now d data) as [d1 out1]. cbn [fst store sent raised] in *.
  destruct (enrich_as_loop self d1 sent0) as (-> & -> & ->).
  destruct (summarize_loop_resolves self (get_unsmarized_news d1) Hmodel d1 sent0
              (backlog_contents d1 Hcontent)) as (Hraised & Hsent & Hrows).
  assert (Hres : Forall2 resolved (rows d1)
                   (rows (store (summarize_loop self d1 sent0
                                   (get_unsmarized_news d1))))).
  { apply Forall2_same_length_lookup_2; [eapply Forall2_length, Hrows |].
    intros i r r' Hr Hr'.
    destruct (Forall2_lookup_lr _ _ _ _ _ _ Hrows Hr Hr') as [Hin Hout].
    destruct (decide (id r ∈ map u_id (get_unsmarized_news d1))) as [Hy | Hn].
    - destruct (Hin Hy) as (s & -> & Hs).
      split; [apply set_summary_resolved, Hs | right; exists s; reflexivity].
    - rewrite (Hout Hn). split; [| left; reflexivity].
      destruct (summary_missing r) eqn:Hm; [| reflexivity].
      exfalso. apply Hn. apply backlog_ids; [| exact Hm].
      eapply list_elem_of_lookup_2, Hr. }
  split; [exact Hraised | split; [| split; [exact Hres | exact Hsent]]].
  unfold get_unsmarized_news at 1. rewrite filter_none; [reflexivity |].
  apply Forall_forall. intros r' Hr'.
  apply list_elem_of_lookup in Hr' as [i Hi].
  destruct (Forall2_lookup_r _ _ _ _ _ Hres Hi) as (r & _ & [Hm _]). exact Hm.
Qed.

Lemma enrich_clears_backlog_witness :
  let r := process_and_summarize_news failing_service "now" pending_db [] no_news in
  (raised r = None
   /\ get_unsmarized_news (store r) = []
   /\ Forall2 resolved (rows pending_db) (rows (store r))
   /\ sent r = [summarize_request (Some "text one");
                summarize_request (Some "text two")])
  /\ map summary (rows (store r))
     = [Some (error_summary "text one"); Some (error_summary "text two")].
Proof.
  cbv zeta. split; [| reflexivity].
  refine (enrich_clears_backlog failing_service "now" pending_db [] no_news _ _).
  - intros _ sent0 req c H. discriminate H.
  - intros r Hr _. cbn in Hr.
    repeat (apply elem_of_cons in Hr as [-> | Hr]); try discriminate.
    inversion Hr.
Defined.

(** C7. When the query for the day returns nothing, [create_daily_report]
    returns the message built from its two arguments alone and sends no
    request to the model. *)
Theorem empty_day_report_is_fixed self d sent0 target_date_str sym :
  get_news_by_date_range d target_date_str target_date_str sym = [] ->
  result (create_daily_report self d sent0 target_date_str sym)
  = inr (no_summaries_message target_date_str sym)
  /\ requests (create_daily_report self d sent0 target_date_str sym) = sent0.
Proof.
  intros Hempty. unfold create_daily_report. rewrite Hempty. split; reflexivity.
Qed.

Lemma empty_day_report_is_fixed_witness :
  result (create_daily_report failing_service pending_db [] "2025-08-02" (Some "AAPL"))
  = inr "No news summaries found for 2025-08-02 (Symbol: AAPL) to generate a report."
  /\ requests (create_daily_report failing_service pending_db [] "2025-08-02" (Some "AAPL"))
     = [].
Proof.
  exact (empty_day_report_is_fixed failing_service pending_db [] "2025-08-02"
           (Some "AAPL") eq_refl).
Defined.

End PipelineFacts.

(* ===================================================================== *)
(** * Further properties of the store                                     *)
(* ===================================================================== *)

Section StoreLaws.
Import Py Database Store Keys.

(** The columns of the row an insert writes. *)
Lemma row_of_columns now n item r :
  row_of now n item = Some r ->
  id r = n /\ summary r = None /\ created_at r = Some now
  /\ adapt (get item "symbol") = Some (Some (symbol r))
  /\ adapt (get item "title") = Some (Some (title r))
  /\ adapt (get item "link") = Some (Some (link r))
  /\ adapt (get item "content") = Some (content r)
  /\ adapt (get item "source") = Some (source r).
Proof.
  unfold row_of. repeat case_match; try discriminate.
  intros [= <-]. cbn. repeat split; congruence.
Qed.

(** Whether a candidate yields a row does not depend on the time or on the
    rowid. *)
Lemma row_of_none now n now' n' item :
  row_of now n item = None -> row_of now' n' item = None.
Proof.
  unfold row_of. repeat case_match; (discriminate || reflexivity).
Qed.

(** The loop over any batch: the table it leaves, the count it reaches and the
    number of messages it prints. *)
Lemma save_loop_account now batch :
  forall d k,
    exists new out,
      save_loop now d batch k
      = ({| rows := rows d ++ new; seq := seq d + length new |},
         k + length new, out)
      /\ length out + length new = length batch
      /\ Forall (written_from now batch) new
      /\ map id new = List.seq (S (seq d)) (length new).
Proof.
  induction batch as [|item rest IH]; intros d k.
  - exists [], []. cbn. rewrite app_nil_r, !Nat.add_0_r. destruct d.
    repeat split. constructor.
  - destruct (execute_insert_cases now d item)
      as [[Hsame Hnot] | (r & Hrow & Hfresh & Hexec)].
    + destruct (IH d k) as (new & out & Hloop & Hlen & Hnew & Hids).
      cbn [save_loop]. destruct (execute_insert now d item) as [d1 res].
      cbn in Hsame, Hnot. subst d1.
      destruct res; [congruence | |]; rewrite Hloop;
        (eexists new, (_ :: out); repeat split;
         [cbn [length]; lia | apply written_from_cons, Hnew | exact Hids]).
    + destruct (IH {| rows := rows d ++ [r]; seq := S (seq d) |} (S k))
        as (new & out & Hloop & Hlen & Hnew & Hids).
      cbn [save_loop]. rewrite Hexec, Hloop. cbn [rows seq].
      exists (r :: new), out. cbn [length map List.seq].
      rewrite <- app_assoc. cbn [app].
      replace (S (seq d) + length new) with (seq d + S (length new)) by lia.
      replace (S k + length new) with (k + S (length new)) by lia.
      repeat split.
      * lia.
      * constructor.
        -- exists item, (S (seq d)). split; [left | exact Hrow].
        -- apply written_from_cons, Hnew.
      * f_equal; [apply (row_of_columns _ _ _ _ Hrow) | exact Hids].
Qed.

Lemma storable_iff_row_of now n item :
  storable item = true <-> exists r, row_of now n item = Some r.
Proof.
  unfold storable. split.
  - intros H. destruct (row_of now n item) as [r|] eqn:Hr; [eauto |].
    rewrite (row_of_none _ _ "" 0 _ Hr) in H. discriminate.
  - intros [r Hr]. destruct (row_of "" 0 item) eqn:H0; [reflexivity |].
    rewrite (row_of_none _ _ now n _ H0) in Hr. discriminate.
Qed.

(** A batch all of whose possible rows meet their link in the table leaves
    the table as it is. *)
Lemma save_loop_all_rejected now batch d :
  (forall item r n, item ∈ batch -> row_of now n item = Some r -> link r ∈ links d) ->
  forall k, exists out,
    save_loop now d batch k = (d, k, out) /\ length out = length batch.
Proof.
  induction batch as [|item rest IH]; intros Hall k.
  - exists []. split; reflexivity.
  - destruct (IH (fun item' r n Hi => Hall item' r n (list_elem_of_further _ _ _ Hi)) k)
      as (out & Hloop & Hlen).
    destruct (execute_insert_cases now d item)
      as [[Hsame Hnot] | (r & Hrow & Hfresh & _)].
    + cbn [save_loop]. destruct (execute_insert now d item) as [d1 res].
      cbn in Hsame, Hnot. subst d1.
      destruct res; [congruence | |]; rewrite Hloop; eexists (_ :: out);
        (split; [reflexivity | cbn [length]; lia]).
    + exfalso. apply Hfresh. eapply Hall; [left | exact Hrow].
Qed.

(** X2. For any batch, whatever fails in it, [save_news] keeps the rows it
    found, appends the rows it inserted under the next rowids in order, prints
    as the count the number of rows appended, and prints one message for each
    candidate it did not insert. *)
Theorem save_news_accounts_for_every_candidate now d batch :
  exists new out,
    save_news now d batch
    = ({| rows := rows d ++ new; seq := seq d + length new |},
       out ++ [PrintSaved (length new)], VNone)
    /\ length out + length new = length batch
    /\ map id new = List.seq (S (seq d)) (length new).
Proof.
  destruct (save_loop_account now batch d 0) as (new & out & Hloop & Hlen & _ & Hids).
  exists new, out. unfold save_news. rewrite Hloop. auto.
Qed.

(** X3. Saving a batch a second time, at any later time, inserts nothing:
    the table stays as the first call left it, the count printed is 0 and
    every candidate gets a message. *)
Theorem save_news_twice_inserts_nothing now now' d batch :
  exists out,
    save_news now' (save_news now d batch).1.1 batch
    = ((save_news now d batch).1.1, out ++ [PrintSaved 0], VNone)
    /\ length out = length batch.
Proof.
  rewrite save_news_table.
  destruct (save_loop_table now batch d 0) as (_ & _ & _ & _ & Hin).
  destruct (save_loop_all_rejected now' batch (save_loop now d batch 0).1.1) with (k := 0)
    as (out & Hloop & Hlen).
  { intros item r n Hi Hrow.
    apply (Hin item (link r) Hi).
    - apply (storable_iff_row_of now' n). eauto.
    - unfold bound_link.
      destruct (row_of_columns _ _ _ _ Hrow) as (_ & _ & _ & _ & _ & -> & _).
      reflexivity. }
  exists out. unfold save_news at 1. rewrite Hloop. auto.
Qed.

Lemma well_keyed_append d new :
  well_keyed d ->
  map id new = List.seq (S (seq d)) (length new) ->
  well_keyed {| rows := rows d ++ new; seq := seq d + length new |}.
Proof.
  intros [Hinc Hbound] Hids.
  assert (Hnew : forall k r, new !! k = Some r -> id r = S (seq d) + k /\ k < length new).
  { intros k r Hk.
    assert (Hid : map id new !! k = Some (id r))
      by (rewrite list_lookup_fmap, Hk; reflexivity).
    rewrite Hids in Hid. apply lookup_seq in Hid. exact Hid. }
  assert (Hold : forall i r, rows d !! i = Some r -> 1 <= id r <= seq d).
  { intros i r Hi. rewrite Forall_forall in Hbound. apply Hbound.
    apply list_elem_of_fmap. exists r. split; [reflexivity |].
    eapply list_elem_of_lookup_2, Hi. }
  split; cbn [rows seq].
  - intros i j ri rj Hi Hj Hlt.
    apply lookup_app_Some in Hi as [Hi | [Hil Hi]];
      apply lookup_app_Some in Hj as [Hj | [Hjl Hj]].
    + eapply Hinc; eassumption.
    + apply Hold in Hi. apply Hnew in Hj. lia.
    + apply lookup_lt_Some in Hj. lia.
    + apply Hnew in Hi. apply Hnew in Hj. lia.
  - unfold ids. cbn [rows]. rewrite map_app. apply Forall_app. split.
    + eapply Forall_impl; [exact Hbound |]. cbn. intros n Hn. lia.
    + rewrite Hids. apply Forall_forall. intros n Hn.
      apply elem_of_seq in Hn. lia.
Qed.

Lemma well_keyed_update d news_id new_summary :
  well_keyed d -> well_keyed (update_news_summary d news_id new_summary).1.
Proof.
  intros [Hinc Hbound]. unfold update_news_summary. cbn [fst].
  assert (Hrow : forall i r',
             map (fun r => if decide (id r = news_id)
                           then set_summary new_summary r else r) (rows d) !! i
             = Some r' ->
             exists r, rows d !! i = Some r /\ id r' = id r).
  { intros i r' Hi. rewrite list_lookup_fmap in Hi.
    destruct (rows d !! i) as [r|]; [| discriminate].
    exists r. split; [reflexivity |]. cbn in Hi. injection Hi as <-.
    destruct (decide (id r = news_id)); reflexivity. }
  split; cbn [rows seq].
  - intros i j ri rj Hi Hj Hlt.
    destruct (Hrow _ _ Hi) as (ri0 & Hi0 & ->).
    destruct (Hrow _ _ Hj) as (rj0 & Hj0 & ->).
    eapply Hinc; eassumption.
  - unfold ids in *. cbn [rows]. rewrite map_map.
    erewrite map_ext; [exact Hbound |].
    intros r. cbn. destruct (decide (id r = news_id)); reflexivity.
Qed.

Lemma well_keyed_operation d op :
  well_keyed d -> well_keyed (apply_operation d op).
Proof.
  intros Hd. destruct op; cbn [apply_operation]; try exact Hd.
  - destruct (save_loop_account now news_items d 0)
      as (new & out & Hloop & _ & _ & Hids).
    unfold save_news. rewrite Hloop. cbn [fst].
    apply well_keyed_append; assumption.
  - apply well_keyed_update, Hd.
Qed.

Lemma well_keyed_run ops : well_keyed (run_operations ops).
Proof.
  unfold run_operations.
  assert (H0 : well_keyed (init_db None).1).
  { split; [intros i j ri rj Hi; inversion Hi | constructor]. }
  revert H0. generalize (init_db None).1.
  induction ops as [|op ops IH]; intros d Hd; [exact Hd |].
  cbn [fold_left]. apply IH, well_keyed_operation, Hd.
Qed.

Lemma well_keyed_NoDup d : well_keyed d -> NoDup (ids d).
Proof.
  intros [Hinc _]. apply NoDup_alt. intros i j n Hi Hj.
  unfold ids in *. rewrite list_lookup_fmap in Hi, Hj.
  destruct (rows d !! i) as [ri|] eqn:Ei; [| discriminate].
  destruct (rows d !! j) as [rj|] eqn:Ej; [| discriminate].
  cbn in Hi, Hj. injection Hi as Hi. injection Hj as Hj.
  destruct (Nat.lt_trichotomy i j) as [Hlt | [Heq | Hgt]]; [| exact Heq |].
  - pose proof (Hinc _ _ _ _ Ei Ej Hlt). lia.
  - pose proof (Hinc _ _ _ _ Ej Ei Hgt). lia.
Qed.

(** X1. After any history of store operations on a fresh database the rowids
    grow strictly along the table, lie between 1 and the counter of the
    sequence, and are therefore pairwise distinct: a rowid is never reused
    and never changed. *)
Theorem rowids_grow_along_the_table ops :
  let d := run_operations ops in
  (forall i j ri rj,
     rows d !! i = Some ri -> rows d !! j = Some rj -> i < j -> id ri < id rj)
  /\ Forall (fun n => 1 <= n <= seq d) (ids d)
  /\ NoDup (ids d).
Proof.
  intros d. pose proof (well_keyed_run ops) as Hd. fold d in Hd.
  destruct Hd as [Hinc Hbound].
  split; [exact Hinc | split; [exact Hbound |]].
  apply well_keyed_NoDup. split; assumption.
Qed.

Lemma get_unsmarized_news_app d new n :
  get_unsmarized_news {| rows := rows d ++ new; seq := n |}
  = get_unsmarized_news d
    ++ map backlog_entry (filter (fun r => summary_missing r = true) new).
Proof.
  unfold get_unsmarized_news. cbn [rows]. rewrite filter_app, map_app. reflexivity.
Qed.

(** X4. Every row [save_news] appends is pending: it is written without a
    summary, whatever the candidate carried, so the backlog after the call is
    the backlog before it followed by one entry for each new row. *)
Theorem save_news_extends_backlog now d batch :
  exists new,
    rows (save_news now d batch).1.1 = rows d ++ new
    /\ Forall (fun r => summary r = None) new
    /\ get_unsmarized_news (save_news now d batch).1.1
       = get_unsmarized_news d ++ map backlog_entry new.
Proof.
  destruct (save_loop_account now batch d 0) as (new & out & Hloop & _ & Hnew & _).
  exists new. unfold save_news. rewrite Hloop. cbn [fst rows].
  assert (Hnull : Forall (fun r => summary r = None) new).
  { eapply Forall_impl; [exact Hnew |]. intros r (item & n & _ & Hrow).
    apply (row_of_columns _ _ _ _ Hrow). }
  split; [reflexivity | split; [exact Hnull |]].
  rewrite get_unsmarized_news_app. f_equal. f_equal.
  clear -Hnull. induction Hnull as [|r new Hr _ IH]; [reflexivity |].
  rewrite filter_cons, IH.
  rewrite decide_True by (unfold summary_missing; rewrite Hr; reflexivity).
  reflexivity.
Qed.

(** X5. [update_news_summary] with an id no row has leaves the table as it
    is; with the id of a row, in a table of pairwise distinct rowids, it
    replaces the summary of that row and nothing else. *)
Theorem update_news_summary_touches_one_row d news_id new_summary :
  (news_id ∉ ids d -> (update_news_summary d news_id new_summary).1 = d)
  /\ (forall i r,
        NoDup (ids d) -> rows d !! i = Some r -> id r = news_id ->
        (update_news_summary d news_id new_summary).1
        = {| rows := <[i := set_summary new_summary r]> (rows d); seq := seq d |}).
Proof.
  unfold update_news_summary. cbn [fst]. split.
  - intros Hnot. destruct d as [rs n]. cbn [rows seq] in *. f_equal.
    unfold ids in Hnot. cbn [rows] in Hnot.
    induction rs as [|r rs IH]; [reflexivity |]. cbn [map] in *.
    rewrite decide_False by (intros H; apply Hnot; rewrite <- H; left).
    f_equal. apply IH. intros H. apply Hnot. right. exact H.
  - intros i r Hnd Hi Hid. f_equal. apply list_eq. intros j.
    rewrite list_lookup_fmap.
    destruct (decide (j = i)) as [-> | Hne].
    + rewrite Hi, list_lookup_insert_eq by (eapply lookup_lt_Some, Hi).
      cbn. rewrite decide_True by exact Hid. reflexivity.
    + rewrite list_lookup_insert_ne by congruence.
      destruct (rows d !! j) as [rj|] eqn:Hj; [| reflexivity]. cbn.
      rewrite decide_False; [reflexivity |].
      intros Hj'. apply Hne.
      apply (NoDup_lookup (ids d) j i news_id Hnd); unfold ids;
        rewrite list_lookup_fmap; [rewrite Hj | rewrite Hi]; cbn; congruence.
Qed.

(** X6. Writing a non-empty summary under an id takes exactly the entries of
    that id out of the backlog; writing the empty text under it puts every
    row of that id into the backlog. *)
Theorem update_news_summary_and_backlog d news_id new_summary :
  (str_truthy new_summary = true ->
   get_unsmarized_news (update_news_summary d news_id new_summary).1
   = filter (fun u => u_id u <> news_id) (get_unsmarized_news d))
  /\ (str_truthy new_summary = false ->
      forall r, r ∈ rows d -> id r = news_id ->
                backlog_entry r
                  ∈ get_unsmarized_news (update_news_summary d news_id new_summary).1).
Proof.
  unfold update_news_summary, get_unsmarized_news. cbn [fst rows]. split.
  - intros Hs. induction (rows d) as [|r rs IH]; [reflexivity |].
    cbn [map]. destruct (decide (id r = news_id)) as [Heq | Hne].
    + rewrite (filter_cons _ (set_summary new_summary r)).
      rewrite decide_False
        by (rewrite set_summary_resolved by exact Hs; discriminate).
      rewrite IH, (filter_cons _ r).
      destruct (decide (summary_missing r = true)); [| reflexivity].
      cbn [map]. rewrite filter_cons. cbn [u_id].
      rewrite decide_False by tauto. reflexivity.
    + rewrite !(filter_cons _ r).
      destruct (decide (summary_missing r = true)); [| exact IH].
      cbn [map]. rewrite filter_cons. cbn [u_id].
      rewrite decide_True by exact Hne. f_equal. exact IH.
  - intros Hs r Hr Hid.
    apply list_elem_of_fmap. exists (set_summary new_summary r).
    split; [reflexivity |].
    apply list_elem_of_filter. split.
    + unfold summary_missing. cbn. rewrite Hs. reflexivity.
    + apply list_elem_of_fmap. exists r. split; [| exact Hr].
      rewrite decide_True by exact Hid. reflexivity.
Qed.

End StoreLaws.

(* ===================================================================== *)
(** * Further properties of the date-range query                          *)
(* ===================================================================== *)

Section DateRangeLaws.
Import Py Database Store Timestamps Keys.

Lemma text_le_trans a b c :
  text_le a b = true -> text_le b c = true -> text_le a c = true.
Proof.
  unfold text_le. intros H1 H2.
  apply Is_true_true. apply Is_true_true in H1. apply Is_true_true in H2.
  exact (@transitivity _ String.le _ a b c H1 H2).
Qed.

(** The order of two days, read on the texts of the bounds they give. *)
Lemma compare_day_bounds a b ha ma sa hb mb sb :
  valid_day a -> valid_day b ->
  ha <= 23 -> ma <= 59 -> sa <= 59 -> hb <= 23 -> mb <= 59 -> sb <= 59 ->
  earlier_day a b = true ->
  String.compare
    (format_timestamp {| date := a; hour := ha; minute := ma; second := sa |})
    (format_timestamp {| date := b; hour := hb; minute := mb; second := sb |})
  = Lt.
Proof.
  intros Ha Hb ? ? ? ? ? ? Hearlier.
  rewrite compare_format_timestamp by (repeat split; cbn; (apply Ha || apply Hb || lia)).
  unfold earlier_day in Hearlier. cbn [fields compare_fields date] in *.
  destruct (year a ?= year b); try discriminate; try reflexivity.
  destruct (month a ?= month b); try discriminate; try reflexivity.
  destruct (day_of_month a ?= day_of_month b); try discriminate; reflexivity.
Qed.

Lemma text_le_of_compare_lt a b :
  String.compare a b = Lt -> text_le b a = false.
Proof.
  intros H. unfold text_le, String.leb. rewrite String.compare_antisym, H.
  reflexivity.
Qed.

(** X7. A range whose last day is before its first day selects nothing,
    whatever texts the table holds under [published_at]. *)
Theorem inverted_range_is_empty d first last sym :
  valid_day first -> valid_day last ->
  earlier_day last first = true ->
  get_news_by_date_range d (format_day first) (format_day last) sym = [].
Proof.
  intros Hf Hl Hearlier.
  unfold get_news_by_date_range, select_by_date_range.
  rewrite filter_none; [reflexivity |].
  apply Forall_forall. intros r _.
  apply andb_false_iff. left. unfold between.
  destruct (published_at r) as [p|]; [| reflexivity].
  destruct (text_le (format_day first +:+ " 00:00:00 UTC") p) eqn:Hlo;
    [| reflexivity].
  destruct (text_le p (format_day last +:+ " 23:59:59 UTC")) eqn:Hhi;
    [| reflexivity].
  pose proof (text_le_trans _ _ _ Hlo Hhi) as Hle.
  change (format_day first +:+ " 00:00:00 UTC")
    with (format_timestamp (start_of_day first)) in Hle.
  change (format_day last +:+ " 23:59:59 UTC")
    with (format_timestamp (end_of_day last)) in Hle.
  rewrite text_le_of_compare_lt in Hle; [discriminate |].
  apply compare_day_bounds; (assumption || lia).
Qed.

Lemma inverted_range_is_empty_witness :
  get_news_by_date_range boundary_db "2025-08-02" "2025-08-01" (Some "AAPL") = [].
Proof.
  refine (inverted_range_is_empty boundary_db
            {| year := 2025; month := 8; day_of_month := 2 |}
            {| year := 2025; month := 8; day_of_month := 1 |}
            (Some "AAPL") _ _ eq_refl).
  - repeat split; cbn; lia.
  - repeat split; cbn; lia.
Defined.

(** X8. A candidate saved with its timestamp under ['published'], in the form
    the news fetch writes, is found again: when its link is new and no other
    candidate of the batch carries that link, its row is selected by every
    date-range query whose window holds the timestamp, asked without a symbol
    or with the symbol of the row. *)
Theorem saved_candidate_is_found_by_date now d batch item l t first last :
  item ∈ batch ->
  storable item = true ->
  bound_link item = Some l ->
  l ∉ links d ->
  (forall item', item' ∈ batch -> bound_link item' = Some l -> item' = item) ->
  get item "published" = VStr (format_timestamp t) ->
  valid_timestamp t -> valid_day first -> valid_day last ->
  in_window first last t = true ->
  exists r,
    link r = l
    /\ published_at r = Some (format_timestamp t)
    /\ forall sym,
         sym = None \/ sym = Some (symbol r) ->
         r ∈ select_by_date_range (save_news now d batch).1.1
               (format_day first) (format_day last) sym.
Proof.
  intros Hi Hst Hl Hfresh Honly Hpub Ht Hf Hla Hwin.
  rewrite save_news_table.
  destruct (save_loop_table now batch d 0) as (new & Hrows & Hnew & _ & Hin).
  specialize (Hin item l Hi Hst Hl).
  unfold links in Hin, Hfresh. rewrite Hrows, map_app in Hin.
  apply elem_of_app in Hin as [Hin | Hin]; [contradiction |].
  apply list_elem_of_fmap in Hin as (r & -> & Hr).
  rewrite Forall_forall in Hnew.
  destruct (Hnew r Hr) as (item' & n & Hi' & Hrow).
  assert (item' = item) as ->.
  { apply Honly; [exact Hi' |]. unfold bound_link.
    destruct (row_of_columns _ _ _ _ Hrow) as (_ & _ & _ & _ & _ & -> & _).
    reflexivity. }
  assert (Hp : published_at r = Some (format_timestamp t)).
  { apply row_of_published in Hrow. rewrite Hpub in Hrow. cbn in Hrow.
    congruence. }
  exists r. split; [reflexivity | split; [exact Hp |]].
  intros sym Hsym. unfold select_by_date_range.
  apply list_elem_of_filter. split.
  - rewrite Hp, between_format_timestamp, Hwin by assumption. cbn.
    destruct Hsym as [-> | ->]; [reflexivity |].
    destruct (str_truthy (symbol r)); [| reflexivity].
    apply bool_decide_eq_true. reflexivity.
  - rewrite Hrows. apply elem_of_app. right. exact Hr.
Qed.

Lemma saved_candidate_is_found_by_date_witness :
  exists r,
    link r = "http://example.com/1"
    /\ published_at r = Some "2025-08-02 10:00:00 UTC"
    /\ forall sym,
         sym = None \/ sym = Some (symbol r) ->
         r ∈ select_by_date_range
               (save_news "now" empty_db
                  [candidate_published "AAPL" "Earnings" "http://example.com/1"
                     "2025-08-02 10:00:00 UTC"]).1.1
               "2025-08-02" "2025-08-02" sym.
Proof.
  refine (saved_candidate_is_found_by_date "now" empty_db
            [candidate_published "AAPL" "Earnings" "http://example.com/1"
               "2025-08-02 10:00:00 UTC"]
            (candidate_published "AAPL" "Earnings" "http://example.com/1"
               "2025-08-02 10:00:00 UTC")
            "http://example.com/1"
            {| date := {| year := 2025; month := 8; day_of_month := 2 |};
               hour := 10; minute := 0; second := 0 |}
            {| year := 2025; month := 8; day_of_month := 2 |}
            {| year := 2025; month := 8; day_of_month := 2 |}
            _ eq_refl eq_refl _ _ eq_refl _ _ _ eq_refl).
  - left.
  - intros H. inversion H.
  - intros item' Hi _. apply list_elem_of_singleton in Hi. exact Hi.
  - repeat split; cbn; lia.
  - repeat split; cbn; lia.
  - repeat split; cbn; lia.
Defined.

Lemma filter_sublist {A} (P Q : A -> bool) (l : list A) :
  (forall x, P x = true -> Q x = true) ->
  filter (fun x => P x = true) l `sublist_of` filter (fun x => Q x = true) l.
Proof.
  intros H. induction l as [|x l IH]; [constructor |].
  rewrite !filter_cons.
  destruct (decide (P x = true)) as [Hp | Hp].
  - rewrite decide_True by (apply H, Hp). constructor. exact IH.
  - destruct (decide (Q x = true)); [constructor |]; exact IH.
Qed.

(** X9. Widening the window never loses an item: when the first day moves
    back or stays and the last day moves on or stays, what the narrower query
    returns is a sublist of what the wider one returns, whatever texts the
    table holds. *)
Theorem wider_window_returns_more d first last first' last' sym :
  valid_day first -> valid_day last -> valid_day first' -> valid_day last' ->
  earlier_day first first' = false ->
  earlier_day last' last = false ->
  get_news_by_date_range d (format_day first) (format_day last) sym
    `sublist_of`
  get_news_by_date_range d (format_day first') (format_day last') sym.
Proof.
  intros Hf Hl Hf' Hl' Hfirst Hlast.
  assert (Hlo : text_le (format_day first' +:+ " 00:00:00 UTC")
                        (format_day first +:+ " 00:00:00 UTC") = true).
  { change (format_day first' +:+ " 00:00:00 UTC")
      with (format_timestamp (start_of_day first')).
    change (format_day first +:+ " 00:00:00 UTC")
      with (format_timestamp (start_of_day first)).
    unfold text_le, String.leb.
    rewrite compare_format_timestamp by auto using valid_start_of_day.
    unfold earlier_day in Hfirst. cbn [fields compare_fields start_of_day date hour minute second] in *.
    rewrite (Nat.compare_antisym (year first')), (Nat.compare_antisym (month first')),
            (Nat.compare_antisym (day_of_month first')) in Hfirst.
    destruct (year first' ?= year first); try discriminate; try reflexivity.
    destruct (month first' ?= month first); try discriminate; try reflexivity.
    destruct (day_of_month first' ?= day_of_month first); try discriminate;
      reflexivity. }
  assert (Hhi : text_le (format_day last +:+ " 23:59:59 UTC")
                        (format_day last' +:+ " 23:59:59 UTC") = true).
  { change (format_day last' +:+ " 23:59:59 UTC")
      with (format_timestamp (end_of_day last')).
    change (format_day last +:+ " 23:59:59 UTC")
      with (format_timestamp (end_of_day last)).
    unfold text_le, String.leb.
    rewrite compare_format_timestamp by auto using valid_end_of_day.
    unfold earlier_day in Hlast. cbn [fields compare_fields end_of_day date hour minute second] in *.
    rewrite (Nat.compare_antisym (year last)), (Nat.compare_antisym (month last)),
            (Nat.compare_antisym (day_of_month last)) in Hlast.
    destruct (year last ?= year last'); try discriminate; try reflexivity.
    destruct (month last ?= month last'); try discriminate; try reflexivity.
    destruct (day_of_month last ?= day_of_month last'); try discriminate;
      reflexivity. }
  unfold get_news_by_date_range, select_by_date_range.
  apply (fmap_sublist _), filter_sublist. intros r Hr.
  apply andb_true_iff in Hr as [Hb Hs]. apply andb_true_iff. split; [| exact Hs].
  unfold between in *. destruct (published_at r) as [p|]; [| discriminate].
  apply andb_true_iff in Hb as [H1 H2]. apply andb_true_iff. split.
  - eapply text_le_trans; eassumption.
  - eapply text_le_trans; eassumption.
Qed.

Lemma wider_window_returns_more_witness :
  get_news_by_date_range boundary_db "2025-08-01" "2025-08-01" None
    `sublist_of`
  get_news_by_date_range boundary_db "2025-07-31" "2025-08-02" None.
Proof.
  refine (wider_window_returns_more boundary_db
            {| year := 2025; month := 8; day_of_month := 1 |}
            {| year := 2025; month := 8; day_of_month := 1 |}
            {| year := 2025; month := 7; day_of_month := 31 |}
            {| year := 2025; month := 8; day_of_month := 2 |}
            None _ _ _ _ eq_refl eq_refl);
    repeat split; cbn; lia.
Defined.

End DateRangeLaws.

(* ===================================================================== *)
(** * Further properties of the pipeline                                  *)
(* ===================================================================== *)

Section PipelineLaws.
Import Py Database Store Keys LlmService NewsProcessor Pipeline.

(** The table the ingest phase leaves is the one [save_news] leaves for the
    stamped batch, empty or not. *)
Lemma ingest_table now d data :
  (ingest now d data).1
  = (save_news now d
       (stamp (default (VStr "UNKNOWN") (nd_symbol data)) (nd_news data))).1.1.
Proof.
  unfold ingest.
  destruct (stamp _ (nd_news data)) as [|item rest] eqn:Hst.
  - cbn. destruct d; reflexivity.
  - destruct (save_news now d (item :: rest)) as [[d' out] ret]. reflexivity.
Qed.

(** X10. Every row the ingest phase stores carries the symbol of the batch
    (["UNKNOWN"] when [news_data] has no ['symbol']), whatever symbol the item
    itself carried; existing rows are kept. *)
Theorem ingest_stamps_the_batch_symbol now d data :
  exists new,
    rows (ingest now d data).1 = rows d ++ new
    /\ Forall (fun r => adapt (default (VStr "UNKNOWN") (nd_symbol data))
                        = Some (Some (symbol r))) new
    /\ (nd_symbol data = None -> Forall (fun r => symbol r = "UNKNOWN") new).
Proof.
  rewrite ingest_table, save_news_table.
  set (sym := default (VStr "UNKNOWN") (nd_symbol data)).
  destruct (save_loop_table now (stamp sym (nd_news data)) d 0)
    as (new & Hrows & Hnew & _).
  assert (Hsym : Forall (fun r => adapt sym = Some (Some (symbol r))) new).
  { eapply Forall_impl; [exact Hnew |]. intros r (item & n & Hi & Hrow).
    unfold stamp in Hi. apply list_elem_of_fmap in Hi as (item0 & -> & _).
    destruct (row_of_columns _ _ _ _ Hrow) as (_ & _ & _ & Hs & _).
    unfold get in Hs. rewrite lookup_insert_eq in Hs. exact Hs. }
  exists new. split; [exact Hrows | split; [exact Hsym |]].
  intros Hnone. eapply Forall_impl; [exact Hsym |]. intros r Hr.
  subst sym. rewrite Hnone in Hr. cbn in Hr. congruence.
Qed.

(** What the loop over a backlog can change, for any service and whether it
    ends or raises: the summary of rows whose id is in the backlog. *)
Lemma summarize_loop_frame self backlog :
  forall d sent0,
    seq (store (summarize_loop self d sent0 backlog)) = seq d
    /\ Forall2 (fun r r' =>
                 (id r ∉ map u_id backlog -> r' = r)
                 /\ (r' = r \/ exists s, r' = set_summary s r))
              (rows d) (rows (store (summarize_loop self d sent0 backlog))).
Proof.
  assert (Hrefl : forall rs (ids : list nat),
             Forall2 (fun r r' : row =>
                        (id r ∉ ids -> r' = r)
                        /\ (r' = r \/ exists s, r' = set_summary s r)) rs rs).
  { intros rs ids. apply Forall2_same_length_lookup_2; [reflexivity |].
    intros i r r' Hr Hr'. assert (r' = r) as -> by congruence. auto. }
  induction backlog as [|u rest IH]; intros d sent0.
  - cbn. split; [reflexivity | apply Hrefl].
  - cbn [summarize_loop].
    destruct (result (summarize_text self sent0 (u_content u))) as [e|s].
    + cbn. split; [reflexivity | apply Hrefl].
    + cbn [update_news_summary store].
      destruct (IH {| rows := map (fun r => if decide (id r = u_id u)
                                            then set_summary s r else r) (rows d);
                      seq := seq d |}
                   (requests (summarize_text self sent0 (u_content u))))
        as [Hseq Hrows].
      split; [exact Hseq |].
      cbn [rows] in Hrows. apply Forall2_fmap_l in Hrows.
      eapply Forall2_impl; [exact Hrows |].
      intros r r' [Hout Hchg]. cbn [map].
      destruct (decide (id r = u_id u)) as [Heq | Hne]; cbn in Hout, Hchg.
      * split; [intros Hn; exfalso; apply Hn; rewrite Heq; left |].
        right. destruct Hchg as [-> | [s' ->]]; eauto.
      * split; [| exact Hchg].
        intros Hn. apply Hout. intros H. apply Hn. right. exact H.
Qed.

Lemma Forall2_columns {B} (R : row -> row -> Prop) (f : row -> B) rs rs' :
  (forall r r', R r r' -> f r' = f r) ->
  Forall2 R rs rs' -> map f rs' = map f rs.
Proof.
  intros Hf H. induction H as [|r r' rs rs' Hr _ IH]; [reflexivity |].
  cbn. rewrite IH, (Hf _ _ Hr). reflexivity.
Qed.

Lemma summarized_row_not_in_backlog d i r :
  NoDup (ids d) -> rows d !! i = Some r -> summary_missing r = false ->
  id r ∉ map u_id (get_unsmarized_news d).
Proof.
  intros Hnd Hi Hm Hin. unfold get_unsmarized_news in Hin.
  rewrite map_map in Hin. cbn in Hin.
  apply list_elem_of_fmap in Hin as (r2 & Hid & Hr2).
  apply list_elem_of_filter in Hr2 as [Hm2 Hr2].
  apply list_elem_of_lookup in Hr2 as [j Hj].
  assert (i = j) as ->.
  { apply (NoDup_lookup (ids d) i j (id r) Hnd); unfold ids;
      rewrite list_lookup_fmap; [rewrite Hi | rewrite Hj]; cbn; congruence. }
  congruence.
Qed.

Lemma well_keyed_ingest ops now data :
  well_keyed (ingest now (run_operations ops) data).1.
Proof.
  rewrite ingest_table.
  apply (well_keyed_operation _ (Append now _)), well_keyed_run.
Qed.

Lemma process_store self now d sent0 data :
  store (process_and_summarize_news self now d sent0 data)
  = store (summarize_loop self (ingest now d data).1 sent0
             (get_unsmarized_news (ingest now d data).1))
  /\ sent (process_and_summarize_news self now d sent0 data)
     = sent (summarize_loop self (ingest now d data).1 sent0
               (get_unsmarized_news (ingest now d data).1))
  /\ raised (process_and_summarize_news self now d sent0 data)
     = raised (summarize_loop self (ingest now d data).1 sent0
                 (get_unsmarized_news (ingest now d data).1)).
Proof.
  unfold process_and_summarize_news.
  destruct (ingest now d data) as [d1 out1]. cbn [fst store sent raised].
  apply enrich_as_loop.
Qed.

(** X11. On a store built by the store's own operations, a run of
    [process_and_summarize_news] never rewrites a row that already has a
    non-empty summary, whatever the model answers and whether the run ends
    or raises; the other rows keep everything but their summary, and no row
    is added or removed after the ingest phase. *)
Theorem summarized_rows_are_never_rewritten ops self now sent0 data :
  let d1 := (ingest now (run_operations ops) data).1 in
  let r := process_and_summarize_news self now (run_operations ops) sent0 data in
  seq (store r) = seq d1
  /\ Forall2 (fun row row' =>
                (summary_missing row = false -> row' = row)
                /\ (row' = row \/ exists s, row' = set_summary s row))
             (rows d1) (rows (store r)).
Proof.
  intros d1 r. subst r.
  destruct (process_store self now (run_operations ops) sent0 data) as (-> & _ & _).
  fold d1.
  destruct (summarize_loop_frame self (get_unsmarized_news d1) d1 sent0)
    as [Hseq Hrows].
  split; [exact Hseq |].
  apply Forall2_same_length_lookup_2; [eapply Forall2_length, Hrows |].
  intros i row row' Hi Hi'.
  destruct (Forall2_lookup_lr _ _ _ _ _ _ Hrows Hi Hi') as [Hout Hchg].
  split; [| exact Hchg].
  intros Hm. apply Hout.
  eapply summarized_row_not_in_backlog; [| exact Hi | exact Hm].
  apply well_keyed_NoDup, well_keyed_ingest.
Qed.

(** With contents to quote and a model that never answers blank, the enrich
    phase ends and leaves no backlog. *)
Lemma summarize_loop_clears self d sent0 :
  never_blank self ->
  backlog_has_content d ->
  raised (summarize_loop self d sent0 (get_unsmarized_news d)) = None
  /\ get_unsmarized_news
       (store (summarize_loop self d sent0 (get_unsmarized_news d))) = [].
Proof.
  intros Hmodel Hcontent.
  destruct (summarize_loop_resolves self (get_unsmarized_news d) Hmodel d sent0
              (backlog_contents d Hcontent)) as (Hraised & _ & Hrows).
  split; [exact Hraised |].
  unfold get_unsmarized_news at 1. rewrite filter_none; [reflexivity |].
  apply Forall_forall. intros r' Hr'.
  apply list_elem_of_lookup in Hr' as [i Hi].
  destruct (Forall2_lookup_r _ _ _ _ _ Hrows Hi) as (r & Hr & [Hin Hout]).
  destruct (decide (id r ∈ map u_id (get_unsmarized_news d))) as [Hy | Hn].
  - destruct (Hin Hy) as (s & -> & Hs). apply set_summary_resolved, Hs.
  - rewrite (Hout Hn). destruct (summary_missing r) eqn:Hm; [| reflexivity].
    exfalso. apply Hn. apply backlog_ids; [| exact Hm].
    eapply list_elem_of_lookup_2, Hr.
Qed.

(** X12. A second run on the same [news_data], after a run that ended, is
    a no-op: it inserts nothing, finds no backlog, sends no request and
    leaves the store as the first run left it. *)
Theorem second_run_changes_nothing self now now' d sent0 data :
  never_blank self ->
  backlog_has_content (ingest now d data).1 ->
  let r1 := process_and_summarize_news self now d sent0 data in
  let r2 := process_and_summarize_news self now' (store r1) (sent r1) data in
  raised r1 = None
  /\ raised r2 = None
  /\ store r2 = store r1
  /\ sent r2 = sent r1.
Proof.
  intros Hmodel Hcontent r1 r2.
  destruct (process_store self now d sent0 data) as (Hstore1 & Hsent1 & Hraised1).
  destruct (summarize_loop_clears self (ingest now d data).1 sent0 Hmodel Hcontent)
    as [Hr1 Hempty].
  fold r1 in Hstore1, Hsent1, Hraised1. rewrite <- Hstore1 in Hempty.
  assert (Hingest : (ingest now' (store r1) data).1 = store r1).
  { rewrite ingest_table, save_news_table.
    set (batch := stamp (default (VStr "UNKNOWN") (nd_symbol data)) (nd_news data)).
    destruct (save_loop_all_rejected now' batch (store r1)) with (k := 0)
      as (out & -> & _); [| reflexivity].
    intros item r n Hi Hrow.
    destruct (save_loop_table now batch d 0) as (_ & _ & _ & _ & Hin).
    assert (Hl : link r ∈ links (ingest now d data).1).
    { rewrite ingest_table, save_news_table. apply (Hin item (link r) Hi).
      - apply (storable_iff_row_of now' n). eauto.
      - unfold bound_link.
        destruct (row_of_columns _ _ _ _ Hrow) as (_ & _ & _ & _ & _ & -> & _).
        reflexivity. }
    destruct (summarize_loop_frame self
                (get_unsmarized_news (ingest now d data).1)
                (ingest now d data).1 sent0) as [_ Hrows].
    rewrite <- Hstore1 in Hrows. unfold links in *.
    assert (Hlinks : map link (rows (store r1))
                     = map link (rows (ingest now d data).1)).
    { eapply Forall2_columns; [| exact Hrows].
      intros r0 r0' [_ [-> | [s0 ->]]]; reflexivity. }
    rewrite Hlinks. exact Hl. }
  destruct (process_store self now' (store r1) (sent r1) data)
    as (Hstore2 & Hsent2 & Hraised2).
  fold r2 in Hstore2, Hsent2, Hraised2.
  rewrite Hingest, Hempty in Hstore2, Hsent2, Hraised2. cbn in *.
  repeat split; congruence.
Qed.

Lemma second_run_changes_nothing_witness :
  let r1 := process_and_summarize_news failing_service "t1" pending_db [] no_news in
  let r2 := process_and_summarize_news failing_service "t2" (store r1) (sent r1) no_news in
  raised r1 = None /\ raised r2 = None /\ store r2 = store r1 /\ sent r2 = sent r1.
Proof.
  cbv zeta.
  refine (second_run_changes_nothing failing_service "t1" "t2" pending_db [] no_news _ _).
  - intros _ sent0 req c H. discriminate H.
  - intros r Hr _. cbn in Hr.
    repeat (apply elem_of_cons in Hr as [-> | Hr]); try discriminate.
    inversion Hr.
Defined.







End PipelineLaws.

(* ===================================================================== *)
(** * Further properties of the summarization service and the report      *)
(* ===================================================================== *)

Section ServiceLaws.
Import Py Database LlmService NewsProcessor Pipeline Report.

Lemma is_prefix_append (x y : string) : is_prefix x (x +:+ y) = true.
Proof.
  induction x as [|c x IH]; [reflexivity |].
  change (String c x +:+ y) with (String c (x +:+ y)). cbn [is_prefix].
  rewrite Ascii.eqb_refl. exact IH.
Qed.

Lemma is_substring_skip (a x s : string) :
  is_substring x s = true -> is_substring x (a +:+ s) = true.
Proof.
  intros H. induction a as [|c a IH]; [exact H |].
  change (String c a +:+ s) with (String c (a +:+ s)). cbn [is_substring].
  rewrite IH. apply orb_true_r.
Qed.

Lemma is_substring_middle (a x b : string) :
  is_substring x (a +:+ x +:+ b) = true.
Proof.
  apply is_substring_skip. destruct (x +:+ b) eqn:E; cbn [is_substring];
    rewrite <- E, is_prefix_append; reflexivity.
Qed.

(** The enumerated list, split at one of its items. *)
Lemma report_lines_split news_summaries :
  forall k i item,
    news_summaries !! i = Some item ->
    exists a b,
      report_lines k news_summaries = (a +:+ report_line (k + i) item +:+ b)%string.
Proof.
  induction news_summaries as [|x rest IH]; intros k i item Hi; [discriminate |].
  cbn [report_lines]. destruct i as [|i].
  - injection Hi as ->. exists "", (report_lines (S k) rest).
    rewrite Nat.add_0_r. unfold report_line.
    rewrite !append_associative. reflexivity.
  - destruct (IH (S k) i item Hi) as (a & b & ->).
    exists (report_line k x +:+ a), b.
    replace (k + S i) with (S k + i) by lia.
    unfold report_line. rewrite !append_associative. reflexivity.
Qed.

(** X14. [create_daily_report] never raises. Without an API key it sends
    nothing; with a key and a day that has items it sends exactly one request,
    and the user message of that request holds, for every item returned by the
    query, the lines with its 1-based number, its title and its summary: no
    item is dropped from the prompt. *)
Theorem daily_report_prompt_lists_every_item self d sent0 target_date_str sym :
  let items := get_news_by_date_range d target_date_str target_date_str sym in
  let o := create_daily_report self d sent0 target_date_str sym in
  (exists text, result o = inr text)
  /\ (no_api_key self = true -> requests o = sent0)
  /\ (no_api_key self = false -> items <> [] ->
      requests o = sent0 ++ [report_request items])
  /\ (forall i item,
        items !! i = Some item ->
        is_substring (report_line i item) (user_message (report_request items))
        = true).
Proof.
  intros items o. subst o. unfold create_daily_report. fold items.
  split; [| split; [| split]].
  - destruct items as [|x rest]; [eexists; reflexivity |].
    cbn [result]. unfold generate_daily_report.
    destruct (no_api_key self); [eexists; reflexivity |].
    destruct (chat self sent0 (report_request (x :: rest))) as [|[c|]];
      eexists; reflexivity.
  - intros Hkey. destruct items as [|x rest]; [reflexivity |].
    cbn [requests]. unfold generate_daily_report. rewrite Hkey. reflexivity.
  - intros Hkey Hne. destruct items as [|x rest]; [congruence |].
    cbn [requests]. unfold generate_daily_report. rewrite Hkey.
    destruct (chat self sent0 (report_request (x :: rest))) as [|[c|]];
      reflexivity.
  - intros i item Hi.
    destruct (report_lines_split items 0 i item Hi) as (a & b & Hsplit).
    unfold report_request. cbn [user_message]. rewrite Hsplit. cbn [Nat.add].
    match goal with
    | |- is_substring _ ?m = true =>
        replace m with
          (("Here are the news summaries for today:" +:+ nl +:+ nl
            +:+ "Daily News Report:" +:+ nl +:+ nl +:+ a)
           +:+ report_line i item
           +:+ (b +:+ nl +:+ nl
                +:+ "Please generate a comprehensive daily report."))%string
          by (rewrite !append_associative; reflexivity)
    end.
    apply is_substring_middle.
Qed.

Lemma str_take_length n (t : string) :
  String.length (str_take n t) = Nat.min n (String.length t).
Proof.
  revert t. induction n as [|n IH]; intros [|c t]; cbn; try reflexivity.
  rewrite IH. reflexivity.
Qed.

Lemma str_take_prefix n (t : string) : is_prefix (str_take n t) t = true.
Proof.
  revert t. induction n as [|n IH]; intros [|c t]; cbn; try reflexivity.
  rewrite Ascii.eqb_refl. apply IH.
Qed.

(** X15. [summarize_text] sends no request without an API key and exactly
    one with a key. It raises only [TypeError], and exactly when the text is
    [None] and no answer of the model is used (no key, or the call failed or
    came back without content). For a text, when no answer is used, the
    summary returned quotes a prefix of the text of at most 100 characters
    inside the placeholder or the error marker. *)
Theorem summarize_text_outcomes self sent0 text :
  let o := summarize_text self sent0 text in
  let answered :=
    no_api_key self = false
    /\ exists c, chat self sent0 (summarize_request text) = MessageContent (Some c) in
  requests o = (if no_api_key self then sent0
                else sent0 ++ [summarize_request text])
  /\ (forall e, result o = inl e <-> e = TypeError /\ text = None /\ ~ answered)
  /\ (forall t,
        text = Some t -> ~ answered ->
        exists quoted,
          result o = inr (if no_api_key self then placeholder_summary quoted
                          else error_summary quoted)
          /\ is_prefix quoted t = true
          /\ String.length quoted = Nat.min 100 (String.length t)).
Proof.
  intros o answered. subst o answered. unfold summarize_text.
  destruct (no_api_key self) eqn:Hkey.
  - split; [reflexivity | split].
    + intros e. destruct text as [t|]; cbn.
      * split; [discriminate | intros (_ & H & _); discriminate].
      * split; [intros [= <-]; repeat split; intros [H _]; discriminate
               | intros (-> & _); reflexivity].
    + intros t -> _. exists (str_take 100 t).
      split; [reflexivity | split; [apply str_take_prefix | apply str_take_length]].
  - destruct (chat self sent0 (summarize_request text)) as [|[c|]] eqn:Hreply; cbn.
    + split; [reflexivity | split].
      * intros e. destruct text as [t|]; cbn.
        -- split; [discriminate | intros (_ & H & _); discriminate].
        -- split; [intros [= <-]; repeat split; intros [_ [c H]]; discriminate
                  | intros (-> & _); reflexivity].
      * intros t -> _. exists (str_take 100 t).
        split; [reflexivity | split; [apply str_take_prefix | apply str_take_length]].
    + split; [reflexivity | split].
      * intros e. split; [discriminate |].
        intros (_ & _ & H). exfalso. apply H. split; [reflexivity | eauto].
      * intros t _ H. exfalso. apply H. split; [reflexivity | eauto].
    + split; [reflexivity | split].
      * intros e. destruct text as [t|]; cbn.
        -- split; [discriminate | intros (_ & H & _); discriminate].
        -- split; [intros [= <-]; repeat split; intros [_ [c H]]; discriminate
                  | intros (-> & _); reflexivity].
      * intros t -> _. exists (str_take 100 t).
        split; [reflexivity | split; [apply str_take_prefix | apply str_take_length]].
Qed.

End ServiceLaws.

(* ===================================================================== *)
(** * Further properties of the extractor                                 *)
(* ===================================================================== *)

Section ExtractorLaws.
Import Py FetchHtmlContent Extractor Tiers.

Lemma keeps_ret {A} (a : A) (Q : A -> Prop) : Q a -> keeps (ret a) Q.
Proof. intros Ha st st' sig Hst [= <- <-]. auto. Qed.

Lemma keeps_lift {A} (r : exn + A) : keeps (lift r) (fun _ => True).
Proof.
  intros st st' sig Hst. unfold lift. destruct r; intros [= <- <-]; auto.
Qed.

Lemma keeps_bind {A B} (m : M A) (k : A -> M B) (Q : A -> Prop) (R : B -> Prop) :
  keeps m Q -> (forall a, Q a -> keeps (k a) R) -> keeps (bind m k) R.
Proof.
  intros Hm Hk st st' sig Hst. unfold bind.
  destruct (m st) as [st1 [a|r|e]] eqn:E; destruct (Hm _ _ _ Hst E) as [H1 H2].
  - intros Hka. eapply Hk; eassumption.
  - intros [= <- <-]. auto.
  - intros [= <- <-]. auto.
Qed.

Lemma keeps_weaken {A} (m : M A) (Q R : A -> Prop) :
  keeps m Q -> (forall a, Q a -> R a) -> keeps m R.
Proof.
  intros Hm HQR st st' sig Hst E. destruct (Hm _ _ _ Hst E) as [H1 H2].
  split; [exact H1 |]. destruct sig; auto.
Qed.

Lemma keeps_set_title t : keeps (set_title t) (fun _ => True).
Proof. intros st st' sig Hst [= <- <-]. auto. Qed.

Lemma keeps_append p :
  str_truthy p = true -> keeps (append_paragraph p) (fun _ => True).
Proof.
  intros Hp st st' sig Hst [= <- <-]. split; [| exact I].
  unfold clean in *. cbn. apply Forall_app. auto.
Qed.

Lemma keeps_get_locals : keeps get_locals clean.
Proof. intros st st' sig Hst [= <- <-]. auto. Qed.

Lemma keeps_return {A} r (Q : A -> Prop) :
  str_truthy (content r) = true -> keeps (return_ r) Q.
Proof. intros Hr st st' sig Hst [= <- <-]. auto. Qed.

Lemma keeps_when (b : bool) m :
  (b = true -> keeps m (fun _ => True)) -> keeps (when b m) (fun _ => True).
Proof. destruct b; cbn; [auto | intros _; apply keeps_ret; exact I]. Qed.

Lemma keeps_for_each {A} (l : list A) body :
  (forall x, keeps (body x) (fun _ => True)) ->
  keeps (for_each l body) (fun _ => True).
Proof.
  intros Hbody. induction l as [|x l IH]; cbn [for_each].
  - apply keeps_ret. exact I.
  - eapply keeps_bind; [apply Hbody | intros _ _; exact IH].
Qed.

Lemma keeps_try_except handled body :
  keeps body (fun _ => True) -> keeps (try_except handled body) (fun _ => True).
Proof.
  intros Hbody st st' sig Hst. unfold try_except.
  destruct (body st) as [st1 [a|r|e]] eqn:E; destruct (Hbody _ _ _ Hst E) as [H1 H2].
  - intros [= <- <-]. auto.
  - intros [= <- <-]. auto.
  - destruct (handled e); intros [= <- <-]; auto.
Qed.

(** Joining non-empty lines gives a non-empty text. *)
Lemma join_truthy sep p ps :
  str_truthy p = true -> str_truthy (join sep (p :: ps)) = true.
Proof.
  intros Hp. destruct p as [|c p]; [discriminate |].
  cbn [join]. destruct ps; reflexivity.
Qed.

Lemma keeps_paragraph_step node : keeps (paragraph_step node) (fun _ => True).
Proof.
  unfold paragraph_step.
  eapply keeps_bind; [apply keeps_lift | intros ty _].
  destruct (eq_str ty "p"); [| apply keeps_ret; exact I].
  eapply keeps_bind; [apply keeps_lift | intros has _].
  destruct has; [| apply keeps_ret; exact I].
  eapply keeps_bind; [apply keeps_lift | intros children _].
  eapply keeps_bind; [apply keeps_lift | intros p_children _].
  apply keeps_when. intros H. apply keeps_append, H.
Qed.

Lemma keeps_story_step story_data : keeps (story_step story_data) (fun _ => True).
Proof.
  unfold story_step.
  eapply keeps_bind; [apply keeps_lift | intros has_title _].
  eapply keeps_bind.
  { apply keeps_when. intros _.
    eapply keeps_bind; [apply keeps_lift | intros t _; apply keeps_set_title]. }
  intros _ _.
  eapply keeps_bind; [apply keeps_lift | intros has_ast _].
  eapply keeps_bind with (Q := fun _ => True).
  { destruct has_ast; [| apply keeps_ret; exact I].
    eapply keeps_bind; [apply keeps_lift | intros ast _; apply keeps_lift]. }
  intros has_children _.
  destruct has_children; [| apply keeps_ret; exact I].
  eapply keeps_bind; [apply keeps_lift | intros ast _].
  eapply keeps_bind; [apply keeps_lift | intros children _].
  eapply keeps_bind; [apply keeps_lift | intros nodes _].
  eapply keeps_bind;
    [apply keeps_for_each; intros node; apply keeps_paragraph_step | intros _ _].
  eapply keeps_bind; [apply keeps_get_locals | intros st Hst].
  destruct (truthy (var_title st) && negb (null (content_paragraphs st))) eqn:Hboth;
    [| apply keeps_ret; exact I].
  eapply keeps_bind; [apply keeps_lift | intros stripped _].
  apply keeps_return. cbn [content].
  apply andb_true_iff in Hboth as [_ Hne].
  unfold clean in Hst. destruct (content_paragraphs st) as [|p ps]; [discriminate |].
  apply join_truthy. inversion Hst; assumption.
Qed.

Lemma keeps_script_step script : keeps (script_step script) (fun _ => True).
Proof.
  unfold script_step. apply keeps_try_except.
  eapply keeps_bind; [apply keeps_lift | intros data _].
  eapply keeps_bind; [apply keeps_lift | intros keys _].
  apply keeps_for_each. intros key. unfold entry_step.
  eapply keeps_bind; [apply keeps_lift | intros entry _].
  destruct (is_dict entry); [| apply keeps_ret; exact I].
  eapply keeps_bind; [apply keeps_lift | intros has_story _].
  destruct has_story; [| apply keeps_ret; exact I].
  eapply keeps_bind; [apply keeps_lift | intros story_data _].
  apply keeps_story_step.
Qed.

Lemma keeps_tag_tier doc : keeps (tag_tier doc) (fun _ => True).
Proof.
  unfold tag_tier.
  eapply keeps_bind with (Q := fun _ => True).
  { destruct (title_tag doc); [apply keeps_set_title | apply keeps_ret; exact I]. }
  intros _ _.
  eapply keeps_bind with (Q := fun _ => True).
  { destruct (div_body_KX2tCBZq doc); [| apply keeps_ret; exact I].
    apply keeps_for_each. intros p. apply keeps_when. intros H.
    apply keeps_append, H. }
  intros _ _.
  eapply keeps_bind; [apply keeps_get_locals | intros st Hst].
  unfold clean in Hst. destruct (content_paragraphs st) as [|p ps].
  - apply keeps_return. reflexivity.
  - apply keeps_return. cbn [content]. apply join_truthy.
    inversion Hst; assumption.
Qed.

Lemma parse_news_html_content html_content r :
  parse_news_html html_content = inr r -> str_truthy (content r) = true.
Proof.
  destruct html_content as [|doc]; cbn [parse_news_html].
  - intros [= <-]. reflexivity.
  - assert (Hbody : keeps (json_tier doc ;;; tag_tier doc) (fun _ => True)).
    { eapply keeps_bind with (Q := fun _ => True).
      - unfold json_tier. apply keeps_for_each. intros b. apply keeps_script_step.
      - intros _ _. eapply keeps_weaken; [apply keeps_tag_tier | auto]. }
    destruct ((json_tier doc ;;; tag_tier doc) initial_locals) as [st [a|r'|e]] eqn:E;
      try discriminate.
    + intros _. exfalso. revert E. unfold bind.
      destruct (json_tier doc initial_locals) as [st1 [[]|?|?]]; try discriminate.
      destruct (tag_tier_result doc st1) as [st2 ->]. discriminate.
    + intros [= <-].
      assert (Hclean : clean initial_locals) by constructor.
      exact (proj2 (Hbody _ _ _ Hclean E)).
Qed.

(** X16. Whatever [parse_news_html] returns has a non-empty content: the
    placeholder texts, or collected paragraphs, none of which is empty. *)
Theorem extracted_content_is_never_empty html_content r :
  parse_news_html html_content = inr r -> str_truthy (content r) = true.
Proof.
  apply parse_news_html_content.
Qed.

Lemma extracted_content_is_never_empty_witness :
  str_truthy
    (content {| title := VStr "T"; content := "p1" +:+ nl +:+ "p2" |}) = true.
Proof.
  exact (extracted_content_is_never_empty
           (Html (scripts_only [Malformed; story_script "data" "T" ["p1"; "p2"]]))
           {| title := VStr "T"; content := "p1" +:+ nl +:+ "p2" |} eq_refl).
Defined.

(** X17. On a document whose structured-data blocks contribute nothing (or
    that has none) [parse_news_html] does not raise and returns what the tags
    give: the text of the first title selector that matches and the non-empty
    paragraphs of the content container joined by line feeds. With paragraphs
    and no title tag the title is the empty string; "No Title Found" is
    returned only together with the no-content message, also for a title tag
    whose text is empty. *)
Theorem tag_tier_decides_without_blocks doc :
  Forall inert (scripts doc) ->
  parse_news_html (Html doc) = inr (tag_result doc).
Proof.
  intros Hinert. unfold parse_news_html, json_tier, bind.
  rewrite (for_each_inert _ Hinert).
  destruct (tag_tier_result doc initial_locals) as [st' ->].
  f_equal. unfold fallback_result, tag_result. cbn [app initial_locals var_title
    content_paragraphs].
  destruct (body_paragraphs doc) as [|p ps], (title_tag doc) as [t|]; reflexivity.
Qed.

Lemma tag_tier_decides_without_blocks_witness :
  parse_news_html
    (Html {| scripts := [Malformed]; h1_title_KX2tCBZq := None;
             h1_tv_news_article_title := None; h1_any := None;
             div_body_KX2tCBZq := Some ["first"; ""; "second"] |})
  = inr {| title := VStr ""; content := "first" +:+ nl +:+ "second" |}.
Proof.
  refine (tag_tier_decides_without_blocks
            {| scripts := [Malformed]; h1_title_KX2tCBZq := None;
               h1_tv_news_article_title := None; h1_any := None;
               div_body_KX2tCBZq := Some ["first"; ""; "second"] |} _).
  constructor; [reflexivity | constructor].
Defined.

Lemma assoc_elem_of k kv v : assoc k kv = Some v -> (k, v) ∈ kv.
Proof.
  induction kv as [|[k' v'] kv IH]; cbn; [discriminate |].
  destruct (String.eqb k k') eqn:E.
  - apply String.eqb_eq in E as ->. intros [= ->]. left.
  - intros H. right. apply IH, H.
Qed.

Lemma assoc_of_key k v kv : (k, v) ∈ kv -> exists v', assoc k kv = Some v'.
Proof.
  induction kv as [|[k' v'] kv IH]; intros Hin; [inversion Hin |].
  cbn. destruct (String.eqb k k') eqn:E; [eauto |].
  apply elem_of_cons in Hin as [[= -> ->] | Hin].
  - rewrite String.eqb_refl in E. discriminate.
  - apply IH, Hin.
Qed.

(** An entry that has no story is passed over. *)
Lemma entry_step_no_story kv k v st :
  assoc k kv = Some v -> no_story v ->
  entry_step (VDict kv) (VStr k) st = (st, Normal tt).
Proof.
  intros Hk Hv. unfold entry_step, bind. cbn. rewrite Hk. cbn.
  destruct v as [| | | | |kv']; cbn; try reflexivity.
  cbn in Hv. rewrite Hv. reflexivity.
Qed.

Lemma for_each_no_story kv st :
  Forall (fun p => no_story p.2) kv ->
  forall entries,
    entries ⊆ kv ->
    for_each (map (fun p => VStr p.1) entries) (entry_step (VDict kv)) st
    = (st, Normal tt).
Proof.
  intros Hall entries. induction entries as [|[k v] entries IH]; intros Hsub;
    [reflexivity |].
  cbn [map for_each fst]. unfold bind.
  assert (Hin : (k, v) ∈ kv) by (apply Hsub; left).
  destruct (assoc_of_key _ _ _ Hin) as [v' Hv'].
  rewrite (entry_step_no_story kv k v' st Hv').
  - apply IH. intros x Hx. apply Hsub. right. exact Hx.
  - rewrite Forall_forall in Hall.
    exact (Hall _ (assoc_elem_of _ _ _ Hv')).
Qed.

(** X18. A script tag contributes nothing, whatever was collected before it,
    when it has no string, when its text is not JSON, when the text parses to
    [null], a boolean, a number or a string, and when it parses to an object
    none of whose values is an object with a ['story'] key: the locals stay
    as they are and the next tag is tried. *)
Theorem blocks_without_story_contribute_nothing script :
  script = NoString
  \/ script = Malformed
  \/ (exists data, script = Json data /\ scalar data)
  \/ (exists kv, script = Json (VDict kv) /\ Forall (fun p => no_story p.2) kv) ->
  forall st, script_step script st = (st, Normal tt).
Proof.
  intros [-> | [-> | [(data & -> & Hdata) | (kv & -> & Hkv)]]] st.
  - reflexivity.
  - reflexivity.
  - destruct data as [| | |s| |]; try reflexivity; try contradiction.
    destruct s as [|c s]; reflexivity.
  - unfold script_step, try_except, bind. cbn [json_loads lift iterate].
    rewrite (for_each_no_story kv st Hkv kv) by set_solver. reflexivity.
Qed.

Lemma blocks_without_story_contribute_nothing_witness :
  script_step
    (Json (VDict [("config", VDict [("theme", VStr "dark")]); ("count", VInt 3)]))
    {| var_title := VStr "kept"; content_paragraphs := ["kept too"] |}
  = ({| var_title := VStr "kept"; content_paragraphs := ["kept too"] |}, Normal tt).
Proof.
  refine (blocks_without_story_contribute_nothing _ _ _).
  right. right. right. eexists. split; [reflexivity |].
  repeat constructor.
Defined.

End ExtractorLaws.

(* ===================================================================== *)
(** * Properties of the news fetch                                        *)
(* ===================================================================== *)

Section FetchNewsLaws.
Import Py FetchHtmlContent Extractor FetchNews Feed.

Lemma fetch_news_content_truthy w fetched url page :
  fetch_news_content w fetched url = inr page ->
  str_truthy (content page) = true.
Proof.
  unfold fetch_news_content.
  destruct (fetch_html_content w fetched url) as [|doc].
  - intros [= <-]. reflexivity.
  - apply parse_news_html_content.
Qed.

Lemma visit_cases w start_time end_time fetched item :
  match visit w start_time end_time fetched item with
  | Skipped =>
      selected w start_time end_time item = false
      /\ passable w start_time end_time item
  | Kept entry url =>
      selected w start_time end_time item = true
      /\ passable w start_time end_time item
      /\ links_to entry url
      /\ entry_of w item entry
  | Failed f urls => True
  end.
Proof.
  unfold visit, selected, passable, within, links_to, entry_of.
  destruct (published_dt w item) as [f|t]; [exact I |].
  destruct (before t start_time || before end_time t) eqn:Hout.
  - split.
    + destruct (resolve_link w item) as [|[]]; try reflexivity.
      apply orb_true_iff in Hout as [-> | ->]; cbn; [reflexivity |].
      rewrite andb_false_r. reflexivity.
    + exists t. split; [reflexivity |]. intros Hin. exfalso.
      apply orb_true_iff in Hout as [H | H]; rewrite H in Hin; cbn in Hin;
        [discriminate | rewrite andb_false_r in Hin; discriminate].
  - apply orb_false_iff in Hout as [-> ->]. cbn [negb andb].
    destruct (resolve_link w item) as [e|link]; [exact I |].
    destruct link as [| | |l| |]; cbn [startswith_base]; try exact I.
    destruct (is_prefix base_url l) eqn:Hdomain.
    + destruct (related_symbols item) as [e|related]; [exact I |].
      cbn [str_of].
      destruct (fetch_news_content w fetched l) as [e|page] eqn:Hpage; [exact I |].
      destruct (get_or item "title" (VStr "No Title")) as [e|ti]; [exact I |].
      destruct (get_or item "source" (VStr "Unknown Source")) as [e|so]; [exact I |].
      split; [reflexivity |].
      split; [exists t; split; [reflexivity |]; intros _; exists l; eauto |].
      split; [reflexivity |].
      exists t, l, (content page). repeat split; try reflexivity.
      exact (fetch_news_content_truthy _ _ _ _ Hpage).
    + split; [reflexivity |]. exists t. split; [reflexivity |].
      intros _. exists l. split; [reflexivity |]. intros Hd. congruence.
Qed.

Lemma collect_result w start_time end_time items :
  forall fetched news fetched',
    collect w start_time end_time items fetched = (inr news, fetched') ->
    Forall2 (entry_of w)
      (filter (fun item => selected w start_time end_time item = true) items) news
    /\ Forall (passable w start_time end_time) items
    /\ exists urls, fetched' = fetched ++ urls /\ Forall2 links_to news urls.
Proof.
  induction items as [|item rest IH]; intros fetched news fetched'; cbn [collect].
  - intros [= <- <-]. split; [constructor |]. split; [constructor |].
    exists []. rewrite app_nil_r. split; [reflexivity | constructor].
  - pose proof (visit_cases w start_time end_time fetched item) as Hv.
    destruct (visit w start_time end_time fetched item) as [|entry url|f urls].
    + destruct Hv as [Hsel Hpass]. intros Hrest.
      destruct (IH _ _ _ Hrest) as (Hnews & Hall & Hurls).
      rewrite filter_cons, decide_False by (rewrite Hsel; discriminate).
      split; [exact Hnews |]. split; [constructor; assumption | exact Hurls].
    + destruct Hv as (Hsel & Hpass & Hlink & Hentry).
      destruct (collect w start_time end_time rest (fetched ++ [url]))
        as [[f|news'] fetched''] eqn:Hrest; [discriminate |].
      intros [= <- <-].
      destruct (IH _ _ _ Hrest) as (Hnews & Hall & urls & -> & Hurls).
      rewrite filter_cons, decide_True by exact Hsel.
      split; [constructor; assumption |].
      split; [constructor; assumption |].
      exists (url :: urls). rewrite <- app_assoc. split; [reflexivity |].
      constructor; assumption.
    + discriminate.
Qed.

Lemma fetch_tradingview_news_result w response symbol y m d window r fetched :
  fetch_tradingview_news w response symbol y m d window = (inr r, fetched) ->
  exists body end_time items,
    response = Some body
    /\ plus_days w (opening y m d) window = Some end_time
    /\ feed_items body = inr items
    /\ collect w (opening y m d) end_time items [] = (inr (an_news r), fetched)
    /\ an_symbol r = symbol
    /\ an_start_time r = isoformat (opening y m d)
    /\ an_end_time r = isoformat end_time.
Proof.
  unfold fetch_tradingview_news, feed_items. fold (opening y m d).
  destruct (plus_days w (opening y m d) window) as [end_time|]; [| discriminate].
  destruct response as [body|]; [| discriminate].
  destruct (get_or body "items" (VList [])) as [e|news_items] eqn:Hg;
    [discriminate |].
  destruct (iterate news_items) as [e|items] eqn:Hi; [discriminate |].
  destruct (collect w (opening y m d) end_time items []) as [[f|news] fetched0] eqn:Hc;
    [discriminate |].
  intros [= <- <-]. exists body, end_time, items. rewrite Hg. cbn.
  repeat split; solve [reflexivity | assumption].
Qed.

(** X19. A result of [fetch_tradingview_news] lists exactly the items of the
    feed that are stamped from 9:30 of the target day to the same time
    [window] days later, both ends included, and whose link is a text of the
    TradingView domain: one entry for each, in the order of the feed, with
    the timestamp printed as ['%Y-%m-%d %H:%M:%S UTC'], the link, and a
    non-empty content; and the pages fetched are the links of the entries,
    one each, in that order. *)
Theorem fetched_news_are_the_selected_items
    w response symbol y m d window r fetched :
  fetch_tradingview_news w response symbol y m d window = (inr r, fetched) ->
  exists body end_time items,
    response = Some body
    /\ plus_days w (opening y m d) window = Some end_time
    /\ feed_items body = inr items
    /\ Forall2 (entry_of w)
         (filter (fun item => selected w (opening y m d) end_time item = true) items)
         (an_news r)
    /\ Forall2 links_to (an_news r) fetched.
Proof.
  intros H.
  destruct (fetch_tradingview_news_result _ _ _ _ _ _ _ _ _ H)
    as (body & end_time & items & Hr & He & Hi & Hc & _).
  destruct (collect_result _ _ _ _ _ _ _ Hc) as (Hnews & _ & urls & Hf & Hurls).
  cbn in Hf. subst fetched.
  exists body, end_time, items. repeat split; assumption.
Qed.

Lemma fetched_news_are_the_selected_items_witness :
  exists body end_time items,
    Some example_feed = Some body
    /\ plus_days example_world (opening 2025 7 31) 1 = Some end_time
    /\ feed_items body = inr items
    /\ Forall2 (entry_of example_world)
         (filter (fun item =>
                    selected example_world (opening 2025 7 31) end_time item = true)
                 items)
         (an_news example_news)
    /\ Forall2 links_to (an_news example_news)
         ["https://www.tradingview.com/news/one"].
Proof.
  apply (fetched_news_are_the_selected_items
           example_world (Some example_feed) "AAPL" 2025 7 31 1).
  vm_compute. reflexivity.
Defined.

(** X20. [fetch_tradingview_news] returns a result only if every item of
    the feed, kept or not, has a ['published'] the [datetime] library
    converts, every item stamped within the window has a link that resolves
    to a text, and every item it keeps has related symbols that join: one
    item that fails any of these loses the whole result. *)
Theorem result_needs_every_item_passable
    w body symbol y m d window r fetched end_time items :
  fetch_tradingview_news w (Some body) symbol y m d window = (inr r, fetched) ->
  plus_days w (opening y m d) window = Some end_time ->
  feed_items body = inr items ->
  Forall (passable w (opening y m d) end_time) items.
Proof.
  intros H He Hi.
  destruct (fetch_tradingview_news_result _ _ _ _ _ _ _ _ _ H)
    as (body' & end_time' & items' & Hb & He' & Hi' & Hc & _).
  injection Hb as <-. rewrite He in He'. injection He' as <-.
  rewrite Hi in Hi'. injection Hi' as <-.
  destruct (collect_result _ _ _ _ _ _ _ Hc) as (_ & Hall & _).
  exact Hall.
Qed.

Lemma result_needs_every_item_passable_witness :
  Forall (passable example_world (opening 2025 7 31) example_close) example_items.
Proof.
  apply (result_needs_every_item_passable
           example_world example_feed "AAPL" 2025 7 31 1 example_news
           ["https://www.tradingview.com/news/one"]).
  - vm_compute. reflexivity.
  - reflexivity.
  - reflexivity.
Defined.

Lemma visit_offline w start_time end_time fetched item :
  offline w ->
  match visit w start_time end_time fetched item with
  | Kept entry url => entry !! "content" = Some (VStr failed_content)
  | _ => True
  end.
Proof.
  intros Hoff. unfold visit.
  destruct (published_dt w item) as [f|t]; [exact I |].
  destruct (before t start_time || before end_time t); [exact I |].
  destruct (resolve_link w item) as [e|link]; [exact I |].
  destruct (startswith_base link) as [e|[]]; try exact I.
  destruct (related_symbols item) as [e|related]; [exact I |].
  unfold fetch_news_content. rewrite Hoff.
  destruct (get_or item "title" (VStr "No Title")) as [e|ti]; [exact I |].
  destruct (get_or item "source" (VStr "Unknown Source")) as [e|so]; [exact I |].
  reflexivity.
Qed.

Lemma collect_offline w start_time end_time items :
  offline w ->
  forall fetched news fetched',
    collect w start_time end_time items fetched = (inr news, fetched') ->
    Forall (fun entry => entry !! "content" = Some (VStr failed_content)) news.
Proof.
  intros Hoff.
  induction items as [|item rest IH]; intros fetched news fetched'; cbn [collect].
  - intros [= <- <-]. constructor.
  - pose proof (visit_offline w start_time end_time fetched item Hoff) as Hv.
    destruct (visit w start_time end_time fetched item) as [|entry url|f urls].
    + apply IH.
    + destruct (collect w start_time end_time rest (fetched ++ [url]))
        as [[f|news'] fetched''] eqn:Hrest; [discriminate |].
      intros [= <- <-]. constructor; [exact Hv | exact (IH _ _ _ Hrest)].
    + discriminate.
Qed.

(** X21. A page that cannot be retrieved does not drop its item: when
    [fetch_html_content] gives nothing for any url, a result of
    [fetch_tradingview_news] still has one entry for every page it asked
    for, and each entry carries the text ['Failed to retrieve HTML content.']
    as its content. *)
Theorem unreachable_pages_are_kept_as_error_text
    w response symbol y m d window r fetched :
  offline w ->
  fetch_tradingview_news w response symbol y m d window = (inr r, fetched) ->
  length (an_news r) = length fetched
  /\ Forall (fun entry => entry !! "content" = Some (VStr failed_content))
       (an_news r).
Proof.
  intros Hoff H.
  destruct (fetch_tradingview_news_result _ _ _ _ _ _ _ _ _ H)
    as (body & end_time & items & _ & _ & _ & Hc & _).
  split.
  - destruct (collect_result _ _ _ _ _ _ _ Hc) as (_ & _ & urls & -> & Hurls).
    exact (Forall2_length _ _ _ Hurls).
  - exact (collect_offline _ _ _ _ Hoff _ _ _ Hc).
Qed.

Lemma unreachable_pages_are_kept_as_error_text_witness :
  length (an_news offline_news) = length ["https://www.tradingview.com/news/one"]
  /\ Forall (fun entry => entry !! "content" = Some (VStr failed_content))
       (an_news offline_news).
Proof.
  apply (unreachable_pages_are_kept_as_error_text
           offline_world (Some example_feed) "AAPL" 2025 7 31 1).
  - intros fetched url. reflexivity.
  - vm_compute. reflexivity.
Defined.

End FetchNewsLaws.
